(** * obsidian-timestamps: per-line edit timestamps of an Obsidian vault

    A shallow embedding of the two copies of the plugin, [src/main.ts] and
    [src/src/main.ts]: the JSON store behind [loadMetadata] and
    [saveMetadata], [updateLineTimestamp], [overlayTimestamps] and the
    editor-change handler [handleEditorChange] with its debounce flag.

    Conventions of the embedding.
    - A JavaScript string is a [string] of bytes: the UTF-8 encoding of the
      text, which is also how the vault adapter stores it on disk.
    - A line number is an [N]; the cursor line an editor reports is a
      non-negative integer and [lineNumber.toString()] is its decimal
      numeral (as it is for every integer below 10^21).
    - A JavaScript object used as a string-keyed map is an association list
      in the order in which the engine enumerates its own properties,
      because [JSON.stringify] writes them in that order.  Property names
      inherited from [Object.prototype] are outside the embedding.
    - An [async] method is a function in a state-and-error monad over the
      vault; an event handler runs to completion before the next event.
    - [console.log] has no counterpart. *)

From Stdlib Require Import String Ascii List NArith Bool Arith Lia.
From Stdlib Require Import DecimalString DecimalN Sorted.
Import ListNotations.

Local Open Scope list_scope.
Local Open Scope string_scope.

(** ** Strings *)

Definition dquote : ascii := "034"%char.
Definition backslash : ascii := "092"%char.
Definition newline : ascii := "010"%char.
Definition space : ascii := " "%char.

(** [lineNumber.toString()] and the property key of the numeric index [i]
    in [timestamps[fileName][i]]. *)
Definition toString (n : N) : string := NilZero.string_of_uint (N.to_uint n).

(** A property key is an array index when it is the canonical numeral of an
    integer below 2^32 - 1; such keys are enumerated first, in numeric
    order. *)
Definition array_index (k : string) : option N :=
  match NilZero.uint_of_string k with
  | Some u =>
      let n := N.of_uint u in
      if (toString n =? k) && (n <=? 4294967294)%N then Some n else None
  | None => None
  end.

(** ** Objects as ordered property lists *)

Section JsObject.
Context {V : Type}.

Definition JsObject := list (string * V).

(** [o[k]] for an own property, [undefined] as [None]. *)
Fixpoint get (o : JsObject) (k : string) : option V :=
  match o with
  | [] => None
  | (k', v) :: o' => if k =? k' then Some v else get o' k
  end.

Definition has (o : JsObject) (k : string) : bool :=
  match get o k with Some _ => true | None => false end.

(** Assignment to an existing property keeps its place. *)
Fixpoint overwrite (o : JsObject) (k : string) (v : V) : JsObject :=
  match o with
  | [] => []
  | (k', v') :: o' =>
      if k =? k' then (k', v) :: o' else (k', v') :: overwrite o' k v
  end.

(** A new array-index key goes before the first key that is a larger
    index or no index at all. *)
Fixpoint insert_index (o : JsObject) (n : N) (k : string) (v : V) : JsObject :=
  match o with
  | [] => [(k, v)]
  | (k', v') :: o' =>
      match array_index k' with
      | Some n' =>
          if (n <? n')%N then (k, v) :: o
          else (k', v') :: insert_index o' n k v
      | None => (k, v) :: o
      end
  end.

(** [o[k] = v]. *)
Definition set (o : JsObject) (k : string) (v : V) : JsObject :=
  if has o k then overwrite o k v
  else match array_index k with
       | Some n => insert_index o n k v
       | None => (o ++ [(k, v)])%list
       end.

Definition keys (o : JsObject) : list string := map fst o.

(** The order the engine keeps: array indices ascending, then the other
    keys (in creation order), no key twice.  Every object is in this order;
    a list that is not stands for no object. *)
Fixpoint names_only (ks : list string) : bool :=
  match ks with
  | [] => true
  | k :: ks' =>
      match array_index k with
      | Some _ => false
      | None => negb (existsb (String.eqb k) ks') && names_only ks'
      end
  end.

Fixpoint enumeration_order (lo : option N) (ks : list string) : bool :=
  match ks with
  | [] => true
  | k :: ks' =>
      match array_index k with
      | Some n =>
          match lo with
          | Some l => (l <? n)%N
          | None => true
          end && enumeration_order (Some n) ks'
      | None => names_only ks
      end
  end.

Definition well_formed (o : JsObject) : bool := enumeration_order None (keys o).
End JsObject.

Arguments JsObject : clear implicits.

(** The store, [type Timestamps]: file path to (line number to ISO time). *)
Definition LineMap := JsObject string.
Definition Timestamps := JsObject LineMap.

(** A store all of whose objects are in enumeration order. *)
Definition valid_store (m : Timestamps) : bool :=
  well_formed m && forallb (fun kv => well_formed (snd kv)) m.

(** The time recorded for line [l] of document [p], if any. *)
Definition entry (m : Timestamps) (p : string) (l : N) : option string :=
  match get m p with
  | Some lines => get lines (toString l)
  | None => None
  end.

(** ** [JSON.stringify(metadata, null, 2)] *)

Module JSON.

Definition hex_digit (n : N) : ascii :=
  ascii_of_N (if (n <? 10)%N then 48 + n else 87 + n).

(** QuoteJSONString: the quote, the backslash and the control characters
    are escaped, every other byte is copied. *)
Definition escape_char (c : ascii) : string :=
  if (c =? dquote)%char then String backslash (String dquote "")
  else if (c =? backslash)%char then String backslash (String backslash "")
  else
    let n := N_of_ascii c in
    if (n <? 32)%N then
      String backslash
        (match n with
         | 8%N => "b"
         | 9%N => "t"
         | 10%N => "n"
         | 12%N => "f"
         | 13%N => "r"
         | _ => String "u" (String "0" (String "0"
                  (String (hex_digit (n / 16))
                     (String (hex_digit (n mod 16)) ""))))
         end)
    else String c "".

Fixpoint escape (s : string) : string :=
  match s with
  | "" => ""
  | String c s' => escape_char c ++ escape s'
  end.

Definition quote (s : string) : string :=
  String dquote (escape s ++ String dquote "").

Fixpoint join (sep : string) (l : list string) : string :=
  match l with
  | [] => ""
  | [x] => x
  | x :: l' => x ++ sep ++ join sep l'
  end.

Definition member (kv : string * string) : string :=
  quote (fst kv) ++ ": " ++ snd kv.

(** SerializeJSONObject with gap ["  "]: [members] are the properties with
    their values already serialized, [indent] the enclosing indentation. *)
Definition object (indent : string) (members : list (string * string)) : string :=
  match members with
  | [] => "{}"
  | _ =>
      let inner := indent ++ "  " in
      let sep := String "," (String newline inner) in
      String "{" (String newline inner) ++ join sep (map member members)
        ++ String newline indent ++ "}"
  end.

Definition stringify_lines (o : LineMap) : string :=
  object "  " (map (fun kv => (fst kv, quote (snd kv))) o).

Definition stringify (m : Timestamps) : string :=
  object "" (map (fun kv => (fst kv, stringify_lines (snd kv))) m).

(** ** [JSON.parse], on texts whose value has the shape of [Timestamps]

    [Some m] is the value [JSON.parse] returns when it is a store: an
    object of objects of strings, the declared type of the store.  [None]
    is every other text, whether [JSON.parse] throws or returns a value of
    another kind; [is_json] below tells the two apart. *)

Definition is_ws (c : ascii) : bool :=
  (c =? space)%char || (c =? "009")%char || (c =? newline)%char
  || (c =? "013")%char.

Fixpoint skip_ws (s : string) : string :=
  match s with
  | String c r => if is_ws c then skip_ws r else s
  | "" => ""
  end.

Definition hex_value (c : ascii) : option N :=
  let n := N_of_ascii c in
  if (48 <=? n)%N && (n <=? 57)%N then Some (n - 48)%N
  else if (97 <=? n)%N && (n <=? 102)%N then Some (n - 87)%N
  else if (65 <=? n)%N && (n <=? 70)%N then Some (n - 55)%N
  else None.

Definition code_unit (h1 h2 h3 h4 : ascii) : option N :=
  match hex_value h1, hex_value h2, hex_value h3, hex_value h4 with
  | Some a, Some b, Some c, Some d => Some (((a * 16 + b) * 16 + c) * 16 + d)%N
  | _, _, _, _ => None
  end.

(** The bytes of a [\uXXXX] escape.  A surrogate has no UTF-8 form of its
    own: a high surrogate and the low surrogate after it make one code
    point ([utf8_pair]); a string with a surrogate that stands alone is
    left out of the embedding. *)
Definition utf8 (u : N) : option string :=
  if (u <? 128)%N then Some (String (ascii_of_N u) "")
  else if (u <? 2048)%N then
    Some (String (ascii_of_N (192 + u / 64))
           (String (ascii_of_N (128 + u mod 64)) ""))
  else if (55296 <=? u)%N && (u <=? 57343)%N then None
  else
    Some (String (ascii_of_N (224 + u / 4096))
           (String (ascii_of_N (128 + (u / 64) mod 64))
              (String (ascii_of_N (128 + u mod 64)) ""))).

Definition utf8_pair (hi lo : N) : option string :=
  if (55296 <=? hi)%N && (hi <=? 56319)%N && (56320 <=? lo)%N && (lo <=? 57343)%N
  then
    let u := (65536 + (hi - 55296) * 1024 + (lo - 56320))%N in
    Some (String (ascii_of_N (240 + u / 262144))
           (String (ascii_of_N (128 + (u / 4096) mod 64))
              (String (ascii_of_N (128 + (u / 64) mod 64))
                 (String (ascii_of_N (128 + u mod 64)) ""))))
  else None.

Definition simple_escape (e : ascii) : option ascii :=
  if (e =? dquote)%char then Some dquote
  else if (e =? backslash)%char then Some backslash
  else if (e =? "/")%char then Some "/"%char
  else if (e =? "b")%char then Some "008"%char
  else if (e =? "f")%char then Some "012"%char
  else if (e =? "n")%char then Some "010"%char
  else if (e =? "r")%char then Some "013"%char
  else if (e =? "t")%char then Some "009"%char
  else None.

Definition prepend (bytes : string) (r : option (string * string))
  : option (string * string) :=
  match r with
  | Some (s, rest) => Some (bytes ++ s, rest)
  | None => None
  end.

(** The characters of a string literal after its opening quote: the
    decoded string and the text after the closing quote. *)
Fixpoint parse_chars (s : string) : option (string * string) :=
  match s with
  | "" => None
  | String c r =>
      if (c =? dquote)%char then Some ("", r)
      else if (c =? backslash)%char then
        match r with
        | String e r1 =>
            match simple_escape e with
            | Some x => prepend (String x "") (parse_chars r1)
            | None =>
                if (e =? "u")%char then
                  match r1 with
                  | String h1 (String h2 (String h3 (String h4 r5))) =>
                      match code_unit h1 h2 h3 h4 with
                      | Some u =>
                          match utf8 u with
                          | Some bytes => prepend bytes (parse_chars r5)
                          | None =>     (* a surrogate and the escape after it *)
                              match r5 with
                              | String b (String x (String k1 (String k2
                                  (String k3 (String k4 r9))))) =>
                                  if (b =? backslash)%char && (x =? "u")%char then
                                    match code_unit k1 k2 k3 k4 with
                                    | Some lo =>
                                        match utf8_pair u lo with
                                        | Some bytes =>
                                            prepend bytes (parse_chars r9)
                                        | None => None
                                        end
                                    | None => None
                                    end
                                  else None
                              | _ => None
                              end
                          end
                      | None => None
                      end
                  | _ => None
                  end
                else None
            end
        | "" => None
        end
      else if (N_of_ascii c <? 32)%N then None
      else prepend (String c "") (parse_chars r)
  end.

Definition parse_string (s : string) : option (string * string) :=
  match skip_ws s with
  | String c r => if (c =? dquote)%char then parse_chars r else None
  | "" => None
  end.

Section Objects.
Context {V : Type} (parse_value : string -> option (V * string)).

(** The members of an object after its opening brace, one per unit of
    [fuel]; a repeated key keeps its first place and its last value. *)
Fixpoint parse_members (fuel : nat) (acc : JsObject V) (s : string)
  : option (JsObject V * string) :=
  match fuel with
  | O => None
  | S fuel' =>
      match parse_string s with
      | Some (k, r1) =>
          match skip_ws r1 with
          | String c r2 =>
              if (c =? ":")%char then
                match parse_value r2 with
                | Some (v, r3) =>
                    let acc' := set acc k v in
                    match skip_ws r3 with
                    | String d r4 =>
                        if (d =? ",")%char then parse_members fuel' acc' r4
                        else if (d =? "}")%char then Some (acc', r4)
                        else None
                    | "" => None
                    end
                | None => None
                end
              else None
          | "" => None
          end
      | None => None
      end
  end.

Definition parse_object (fuel : nat) (s : string)
  : option (JsObject V * string) :=
  match skip_ws s with
  | String c r =>
      if (c =? "{")%char then
        match skip_ws r with
        | String d r' =>
            if (d =? "}")%char then Some ([], r')
            else parse_members fuel [] r
        | "" => None
        end
      else None
  | "" => None
  end.
End Objects.

(** Every member takes at least one character, so the length of the text
    is fuel enough. *)
Definition parse (text : string) : option Timestamps :=
  let fuel := String.length text in
  match parse_object (parse_object parse_string fuel) fuel text with
  | Some (m, rest) =>
      match skip_ws rest with
      | "" => Some m
      | _ => None
      end
  | None => None
  end.

(** ** The grammar of JSON

    [JSON.parse] throws a [SyntaxError] exactly on the texts that are not
    JSON.  [is_json] recognises the JSON texts, of any value: it tells a
    text that [JSON.parse] refuses from one whose value is only not a
    store. *)

Fixpoint skip_chars (s : string) : option string :=
  match s with
  | "" => None
  | String c r =>
      if (c =? dquote)%char then Some r
      else if (c =? backslash)%char then
        match r with
        | String e r1 =>
            match simple_escape e with
            | Some _ => skip_chars r1
            | None =>
                if (e =? "u")%char then
                  match r1 with
                  | String h1 (String h2 (String h3 (String h4 r5))) =>
                      match code_unit h1 h2 h3 h4 with
                      | Some _ => skip_chars r5
                      | None => None
                      end
                  | _ => None
                  end
                else None
            end
        | "" => None
        end
      else if (N_of_ascii c <? 32)%N then None
      else skip_chars r
  end.

Definition is_digit (c : ascii) : bool :=
  (48 <=? N_of_ascii c)%N && (N_of_ascii c <=? 57)%N.

Fixpoint skip_digits (s : string) : string :=
  match s with
  | String c r => if is_digit c then skip_digits r else s
  | "" => ""
  end.

(** One digit at least, then the digits that follow. *)
Definition skip_digits1 (s : string) : option string :=
  match s with
  | String c r => if is_digit c then Some (skip_digits r) else None
  | "" => None
  end.

(** A number: an optional minus sign; a zero, or a digit that is not zero
    and any digits; then a fraction (a point and digits) if there is one;
    then an exponent ([e] or [E], a sign if any, digits) if there is one. *)
Definition skip_number (s : string) : option string :=
  let s :=
    match s with
    | String c r => if (c =? "-")%char then r else s
    | "" => s
    end in
  let int :=
    match s with
    | String c r =>
        if (c =? "0")%char then Some r
        else if is_digit c then Some (skip_digits r)
        else None
    | "" => None
    end in
  match int with
  | None => None
  | Some s =>
      let frac :=
        match s with
        | String c r => if (c =? ".")%char then skip_digits1 r else Some s
        | "" => Some s
        end in
      match frac with
      | None => None
      | Some s =>
          match s with
          | String c r =>
              if (c =? "e")%char || (c =? "E")%char then
                match r with
                | String d r' =>
                    if (d =? "+")%char || (d =? "-")%char then skip_digits1 r'
                    else skip_digits1 r
                | "" => None
                end
              else Some s
          | "" => Some s
          end
      end
  end.

Fixpoint skip_prefix (p s : string) : option string :=
  match p, s with
  | "", _ => Some s
  | String a p', String b s' => if (a =? b)%char then skip_prefix p' s' else None
  | String _ _, "" => None
  end.

Inductive Production := Value | Members | Elements.

(** The text after one value, after the members of an object up to its
    closing brace, or after the elements of an array up to its closing
    bracket. *)
Fixpoint skip (fuel : nat) (what : Production) (s : string) : option string :=
  match fuel with
  | O => None
  | S fuel' =>
      match what with
      | Value =>
          match skip_ws s with
          | String c r =>
              if (c =? dquote)%char then skip_chars r
              else if (c =? "{")%char then
                match skip_ws r with
                | String d r' =>
                    if (d =? "}")%char then Some r' else skip fuel' Members r
                | "" => None
                end
              else if (c =? "[")%char then
                match skip_ws r with
                | String d r' =>
                    if (d =? "]")%char then Some r' else skip fuel' Elements r
                | "" => None
                end
              else if (c =? "t")%char then skip_prefix "rue" r
              else if (c =? "f")%char then skip_prefix "alse" r
              else if (c =? "n")%char then skip_prefix "ull" r
              else skip_number (String c r)
          | "" => None
          end
      | Members =>
          match skip_ws s with
          | String c r =>
              if (c =? dquote)%char then
                match skip_chars r with
                | Some r1 =>
                    match skip_ws r1 with
                    | String d r2 =>
                        if (d =? ":")%char then
                          match skip fuel' Value r2 with
                          | Some r3 =>
                              match skip_ws r3 with
                              | String e r4 =>
                                  if (e =? ",")%char then skip fuel' Members r4
                                  else if (e =? "}")%char then Some r4
                                  else None
                              | "" => None
                              end
                          | None => None
                          end
                        else None
                    | "" => None
                    end
                | None => None
                end
              else None
          | "" => None
          end
      | Elements =>
          match skip fuel' Value s with
          | Some r1 =>
              match skip_ws r1 with
              | String e r2 =>
                  if (e =? ",")%char then skip fuel' Elements r2
                  else if (e =? "]")%char then Some r2
                  else None
              | "" => None
              end
          | None => None
          end
      end
  end.

(** A production is entered after a character of its own or as the value
    that opens the elements of an array, so twice the length of the text
    is fuel enough. *)
Definition is_json (text : string) : bool :=
  match skip (2 * String.length text + 2) Value text with
  | Some rest =>
      match skip_ws rest with
      | "" => true
      | _ => false
      end
  | None => false
  end.

End JSON.

(** ** The vault: [app.vault] and [app.vault.adapter]

    Of the vault only [METADATA_DIR] and [METADATA_FILE] matter.  The file
    lives in the folder, so there are three states of the disk.  Whether the
    medium can be read or written at all is the host's affair and is a
    field of the state; [calls] records every call made to the vault. *)

Inductive Error := ENOENT | EEXIST | EIO | SyntaxError | TypeError.

Inductive Disk :=
| NoFolder
| EmptyFolder
| StoreFile (content : string).

Inductive VaultOp :=
| OpRead
| OpCreateFolder
| OpCreate (content : string)
| OpAdapterWrite (content : string).

Record Vault := mkVault {
  disk : Disk;
  readable : bool;
  writable : bool;
  calls : list VaultOp
}.

(** A promise that has settled.  [Unmodelled] is not an outcome of the
    program: it marks a call that left the embedding, because the store
    file holds a JSON value that is not of the declared type of the store
    (an array, a number, a line map with a value that is no string).  The
    embedding says nothing of what the program does from there on. *)
Inductive Outcome (A : Type) :=
| Resolved (a : A)
| Rejected (e : Error)
| Unmodelled.
Arguments Resolved {A} a.
Arguments Rejected {A} e.
Arguments Unmodelled {A}.

Definition Async (A : Type) := Vault -> Outcome A * Vault.

Definition ret {A} (a : A) : Async A := fun v => (Resolved a, v).
Definition throw {A} (e : Error) : Async A := fun v => (Rejected e, v).

Definition bind {A B} (m : Async A) (k : A -> Async B) : Async B :=
  fun v =>
    match m v with
    | (Resolved a, v') => k a v'
    | (Rejected e, v') => (Rejected e, v')
    | (Unmodelled, v') => (Unmodelled, v')
    end.

Definition try_catch {A} (m : Async A) (handler : Error -> Async A) : Async A :=
  fun v =>
    match m v with
    | (Resolved a, v') => (Resolved a, v')
    | (Rejected e, v') => handler e v'
    | (Unmodelled, v') => (Unmodelled, v')
    end.

Definition settled {A} (r : Outcome A) : Async A := fun v => (r, v).
Definition beyond {A} : Async A := fun v => (Unmodelled, v).

Notation "x <- m ;; k" := (bind m (fun x => k))
  (at level 61, m at next level, right associativity).

Definition called (op : VaultOp) (v : Vault) : Vault :=
  mkVault (disk v) (readable v) (writable v) (calls v ++ [op])%list.

Definition stored (d : Disk) (v : Vault) : Vault :=
  mkVault d (readable v) (writable v) (calls v).

(** [adapter.read(METADATA_FILE)] rejects when the file is not there. *)
Definition adapter_read : Async string :=
  fun v =>
    let v := called OpRead v in
    if readable v then
      match disk v with
      | StoreFile content => (Resolved content, v)
      | _ => (Rejected ENOENT, v)
      end
    else (Rejected EIO, v).

(** [vault.createFolder(METADATA_DIR)] rejects when the folder exists. *)
Definition vault_createFolder : Async unit :=
  fun v =>
    let v := called OpCreateFolder v in
    match disk v with
    | NoFolder =>
        if writable v then (Resolved tt, stored EmptyFolder v)
        else (Rejected EIO, v)
    | _ => (Rejected EEXIST, v)
    end.

(** [vault.create(METADATA_FILE, content)] rejects when the file exists. *)
Definition vault_create (content : string) : Async unit :=
  fun v =>
    let v := called (OpCreate content) v in
    match disk v with
    | StoreFile _ => (Rejected EEXIST, v)
    | EmptyFolder =>
        if writable v then (Resolved tt, stored (StoreFile content) v)
        else (Rejected EIO, v)
    | NoFolder => (Rejected ENOENT, v)
    end.

(** [adapter.write(METADATA_FILE, content)] replaces the file. *)
Definition adapter_write (content : string) : Async unit :=
  fun v =>
    let v := called (OpAdapterWrite content) v in
    if writable v then
      match disk v with
      | NoFolder => (Rejected ENOENT, v)
      | _ => (Resolved tt, stored (StoreFile content) v)
      end
    else (Rejected EIO, v).

(** What the store file decodes to, if there is one. *)
Definition persisted (v : Vault) : option Timestamps :=
  match disk v with
  | StoreFile content => JSON.parse content
  | _ => None
  end.

(** ** The host: workspace, view and editor *)

Record TFile := mkFile { path : string; name : string }.

Record Editor := mkEditor {
  doc : list string;          (* the lines of the note *)
  cursor_from_line : N        (* [editor.getCursor("from").line] *)
}.

Record MarkdownView := mkView {
  cm_lines : nat;             (* elements of class [cm-line] in the view *)
  editor : Editor
}.

Record Workspace := mkWorkspace {
  activeFile : option TFile;           (* [workspace.getActiveFile()] *)
  activeView : option MarkdownView     (* [getActiveViewOfType(MarkdownView)] *)
}.

Definition getLine (e : Editor) (i : N) : string := nth (N.to_nat i) (doc e) "".

(** A string is truthy unless it is empty. *)
Definition truthy (s : string) : bool := negb (s =? "").

(** One [div.timestamp-overlay]: the line it belongs to and the time it was
    made from. *)
Definition Badge : Type := N * string.

(** ** The host: the data of the plugin

    [loadData()] resolves to the object the plugin last gave to
    [saveData], or to [null] when it never saved one; the host keeps it in
    the plugin's [data.json].  The settings are objects with string values.
    [Object.assign(target, ...sources)] assigns the properties of every
    source that is not [null], in their order. *)

Definition PluginData : Type := option (JsObject string).

Definition Object_assign {V : Type} (target : JsObject V)
    (sources : list (option (JsObject V))) : JsObject V :=
  fold_left
    (fun target source =>
       match source with
       | Some o => fold_left (fun t kv => set t (fst kv) (snd kv)) o target
       | None => target
       end)
    sources target.

(** ** [src/main.ts]: class [MyPlugin] *)

Module Main.

Inductive Timeout := After (ms : N).

Record Plugin := mkPlugin {
  updatedTimestamp : bool;
  updateTimer : option Timeout
}.

Definition loadMetadata : Async Timestamps :=
  metadataFile <- adapter_read ;;
  match JSON.parse metadataFile with
  | Some metadata => ret metadata
  | None =>
      if JSON.is_json metadataFile then beyond    (* a value that is no store *)
      else throw SyntaxError
  end.

Definition saveMetadata (metadata : Timestamps) : Async unit :=
  let content := JSON.stringify metadata in
  _ <- try_catch vault_createFolder (fun _ => ret tt) ;;   (* folder exists *)
  try_catch (vault_create content)
    (fun _ => adapter_write content).                      (* file exists *)

(** The loop over the rendered lines, from line [i], [todo] lines to go. *)
Fixpoint overlay_lines (ws : Workspace) (view : MarkdownView)
    (timestamps : Timestamps) (i : N) (todo : nat) (shown : list Badge)
  : Outcome (list Badge) :=
  match todo with
  | O => Resolved shown
  | S todo' =>
      let lineText := getLine (editor view) i in
      match activeFile ws with
      | None => Resolved shown                              (* return *)
      | Some file =>
          let fileName := name file in
          if negb (truthy fileName) then Resolved shown     (* return *)
          else
            match get timestamps fileName with
            | None => Rejected TypeError    (* timestamps[fileName] is undefined *)
            | Some lines =>
                let shown' :=
                  match get lines (toString i) with
                  | Some timestamp =>
                      if truthy timestamp && truthy lineText
                      then (shown ++ [(i, timestamp)])%list
                      else shown
                  | None => shown
                  end in
                overlay_lines ws view timestamps (i + 1) todo' shown'
            end
      end
  end.

(** The badges put over the view.  The view comes from
    [getActiveViewOfType(MarkdownView)!], which is [null] when no markdown
    view is active. *)
Definition overlayTimestamps (ws : Workspace) (view : option MarkdownView)
    (timestamps : Timestamps) : Outcome (list Badge) :=
  match view with
  | None => Rejected TypeError              (* view.containerEl of null *)
  | Some view => overlay_lines ws view timestamps 0 (cm_lines view) []
  end.

Definition updateLineTimestamp (ws : Workspace) (filePath : string)
    (lineNumber : N) (timestamp : string) : Async unit :=
  metadata <- loadMetadata ;;
  let metadata :=
    if negb (has metadata filePath) then set metadata filePath [] else metadata in
  let metadata :=
    match get metadata filePath with
    | Some lines =>
        set metadata filePath (set lines (toString lineNumber) timestamp)
    | None => metadata
    end in
  _ <- saveMetadata metadata ;;
  _ <- settled (overlayTimestamps ws (activeView ws) metadata) ;;
  ret tt.

(** [onload], with the settings and the sample commands left out: the
    plugin object once the editor-change handler is registered. *)
Definition onload (ws : Workspace) : Async Plugin :=
  let this := mkPlugin false None in
  timeStamps <- loadMetadata ;;
  _ <- match activeView ws with
       | Some view => settled (overlayTimestamps ws (Some view) timeStamps)
       | None => ret []
       end ;;
  ret this.

(** The handler of [editor-change]; [now] is [new Date().toISOString()]. *)
Definition handleEditorChange (ws : Workspace) (editor : Editor) (now : string)
    (this : Plugin) (v : Vault) : Outcome unit * Plugin * Vault :=
  match activeFile ws with
  | Some file =>
      if negb (updatedTimestamp this) then
        let line := cursor_from_line editor in
        match updateLineTimestamp ws (path file) line now v with
        | (Resolved _, v') =>
            let this := mkPlugin true (updateTimer this) in
            let this :=
              match updateTimer this with
              | None => mkPlugin (updatedTimestamp this) (Some (After 2000))
              | Some _ => this
              end in
            (Resolved tt, this, v')
        | (Rejected e, v') => (Rejected e, this, v')
        | (Unmodelled, v') => (Unmodelled, this, v')
        end
      else (Resolved tt, this, v)
  | None => (Resolved tt, this, v)
  end.

(** The callback given to [setTimeout]. *)
Definition timer_expired (this : Plugin) : Plugin :=
  mkPlugin false None.

(** What the host delivers to the plugin.  [step] and [run] are the
    schedules in which the call of [handleEditorChange] for one event has
    settled before the next event is delivered.  The handler is async and
    nothing makes the host wait for it: calls that overlap are in
    [Awaits] below, where [handleEditorChange_whole] shows [step] to be
    the schedule of [Awaits] that lets one call run from its event to its
    end with nothing in between. *)
Inductive Event :=
| EditorChange (ws : Workspace) (editor : Editor) (now : string)
| TimerExpired.

Definition step (s : Plugin * Vault) (e : Event) : Plugin * Vault :=
  match e with
  | EditorChange ws editor now =>
      let '(_, this, v) := handleEditorChange ws editor now (fst s) (snd s) in
      (this, v)
  | TimerExpired =>
      match updateTimer (fst s) with
      | Some _ => (timer_expired (fst s), snd s)
      | None => s
      end
  end.

Definition run (s : Plugin * Vault) (es : list Event) : Plugin * Vault :=
  fold_left step es s.

(** [DEFAULT_SETTINGS], [loadSettings] (the object it stores in
    [this.settings]) and [saveSettings] (the data it leaves with the
    host), and the [onChange] of the settings tab. *)
Definition DEFAULT_SETTINGS : JsObject string :=
  [("timestampLogLocation", "/.timestamps/")].

Definition loadSettings (data : PluginData) : JsObject string :=
  Object_assign [] [Some DEFAULT_SETTINGS; data].

Definition saveSettings (settings : JsObject string) : PluginData :=
  Some settings.

Definition onChange (value : string) (settings : JsObject string)
  : JsObject string * PluginData :=
  let settings := set settings "timestampLogLocation" value in
  (settings, saveSettings settings).

End Main.

(** ** [src/src/main.ts]: class [Timestamps] *)

Module SrcMain.

Inductive Timeout := After (ms : N).

Record Plugin := mkPlugin {
  canSaveCache : bool;
  saveCacheTimer : option Timeout
}.

Definition loadMetadata : Async Timestamps :=
  metadataFile <- adapter_read ;;
  match JSON.parse metadataFile with
  | Some metadata => ret metadata
  | None =>
      if JSON.is_json metadataFile then beyond    (* a value that is no store *)
      else throw SyntaxError
  end.

Definition saveMetadata (metadata : Timestamps) : Async unit :=
  let content := JSON.stringify metadata in
  _ <- try_catch vault_createFolder (fun _ => ret tt) ;;   (* folder exists *)
  try_catch (vault_create content)
    (fun _ => adapter_write content).                      (* file exists *)

Fixpoint overlay_lines (ws : Workspace) (view : MarkdownView)
    (timestamps : Timestamps) (i : N) (todo : nat) (shown : list Badge)
  : Outcome (list Badge) :=
  match todo with
  | O => Resolved shown
  | S todo' =>
      let lineText := getLine (editor view) i in
      match activeFile ws with
      | None => Resolved shown
      | Some file =>
          let fileName := name file in
          if negb (truthy fileName) then Resolved shown
          else
            match get timestamps fileName with
            | None => Rejected TypeError
            | Some lines =>
                let shown' :=
                  match get lines (toString i) with
                  | Some timestamp =>
                      if truthy timestamp && truthy lineText
                      then (shown ++ [(i, timestamp)])%list
                      else shown
                  | None => shown
                  end in
                overlay_lines ws view timestamps (i + 1) todo' shown'
            end
      end
  end.

Definition overlayTimestamps (ws : Workspace) (view : option MarkdownView)
    (timestamps : Timestamps) : Outcome (list Badge) :=
  match view with
  | None => Rejected TypeError
  | Some view => overlay_lines ws view timestamps 0 (cm_lines view) []
  end.

Definition updateLineTimestamp (ws : Workspace) (filePath : string)
    (lineNumber : N) (timestamp : string) : Async unit :=
  metadata <- loadMetadata ;;
  let metadata :=
    if negb (has metadata filePath) then set metadata filePath [] else metadata in
  let metadata :=
    match get metadata filePath with
    | Some lines =>
        set metadata filePath (set lines (toString lineNumber) timestamp)
    | None => metadata
    end in
  _ <- saveMetadata metadata ;;
  _ <- settled (overlayTimestamps ws (activeView ws) metadata) ;;
  ret tt.

Definition onload : Plugin := mkPlugin false None.

(** The handler of [file-open]. *)
Definition onFileOpen (ws : Workspace) : Async unit :=
  timeStamps <- loadMetadata ;;
  match activeView ws with
  | Some view =>
      _ <- settled (overlayTimestamps ws (Some view) timeStamps) ;; ret tt
  | None => ret tt
  end.

(** The handler of [editor-change]: the debounce of [src/main.ts] is
    commented out here, so the plugin object is left as it is. *)
Definition handleEditorChange (ws : Workspace) (editor : Editor) (now : string)
    (this : Plugin) (v : Vault) : Outcome unit * Plugin * Vault :=
  match activeFile ws with
  | Some file =>
      let line := cursor_from_line editor in
      match updateLineTimestamp ws (path file) line now v with
      | (Resolved _, v') => (Resolved tt, this, v')
      | (Rejected e, v') => (Rejected e, this, v')
      | (Unmodelled, v') => (Unmodelled, this, v')
      end
  | None => (Resolved tt, this, v)
  end.

(** [DEFAULT_SETTINGS], [loadSettings] (the object it stores in
    [this.settings]) and [saveSettings] (the data it leaves with the
    host), and the [onChange] of the settings tab. *)
Definition DEFAULT_SETTINGS : JsObject string :=
  [("timestampLogLocation", "/.timestamps/")].

Definition loadSettings (data : PluginData) : JsObject string :=
  Object_assign [] [Some DEFAULT_SETTINGS; data].

Definition saveSettings (settings : JsObject string) : PluginData :=
  Some settings.

Definition onChange (value : string) (settings : JsObject string)
  : JsObject string * PluginData :=
  let settings := set settings "timestampLogLocation" value in
  (settings, saveSettings settings).

End SrcMain.

(** ** The line diff engine of the specification

    [src/src/main.ts] imports [diff] from the package [fast-myers-diff] and
    never calls it; neither copy computes an edit script or remaps a line
    map.  What the specification says of both is written down here, to
    state what the handlers are compared with. *)

Module Spec.

Definition Range : Type := nat * nat.          (* [start, end) *)

Inductive Op :=
| equal (oldRange newRange : Range)
| insert (newRange : Range)
| delete (oldRange : Range)
| replace (oldRange newRange : Range).

Definition EditScript := list Op.

Inductive Step := Keep | Del | Ins.

Definition cost (ss : list Step) : nat :=
  length (filter (fun s => match s with Keep => false | _ => true end) ss).

(** Modelled from the spec: the body of [computeEditScript] is not in the
    sources.  A shortest line-by-line script; two lines are equal when
    their strings are; a tie goes to the deletion, so that the earliest
    occurrence is matched. *)
Fixpoint steps (oldLines : list string) : list string -> list Step :=
  fix go (newLines : list string) : list Step :=
    match oldLines, newLines with
    | [], _ => map (fun _ => Ins) newLines
    | _, [] => map (fun _ => Del) oldLines
    | x :: oldLines', y :: newLines' =>
        if x =? y then Keep :: steps oldLines' newLines'
        else
          let d := Del :: steps oldLines' newLines in
          let i := Ins :: go newLines' in
          if (cost d <=? cost i)%nat then d else i
    end.

(** Modelled from the spec: one step put in front of a script that starts
    at old index [i + 1] or new index [j + 1]; it joins the run it
    touches, and a deletion next to an insertion is a [replace]. *)
Definition push (s : Step) (i j : nat) (script : EditScript) : EditScript :=
  match s, script with
  | Keep, equal (_, e) (_, f) :: rest => equal (i, e) (j, f) :: rest
  | Keep, _ => equal (i, S i) (j, S j) :: script
  | Del, delete (_, e) :: rest => delete (i, e) :: rest
  | Del, insert (_, f) :: rest => replace (i, S i) (j, f) :: rest
  | Del, replace (_, e) (_, f) :: rest => replace (i, e) (j, f) :: rest
  | Del, _ => delete (i, S i) :: script
  | Ins, insert (_, f) :: rest => insert (j, f) :: rest
  | Ins, delete (_, e) :: rest => replace (i, e) (j, S j) :: rest
  | Ins, replace (_, e) (_, f) :: rest => replace (i, e) (j, f) :: rest
  | Ins, _ => insert (j, S j) :: script
  end.

Fixpoint runs (ss : list Step) (i j : nat) : EditScript :=
  match ss with
  | [] => []
  | Keep :: ss' => push Keep i j (runs ss' (S i) (S j))
  | Del :: ss' => push Del i j (runs ss' (S i) j)
  | Ins :: ss' => push Ins i j (runs ss' i (S j))
  end.

(** Modelled from the spec: [computeEditScript(oldLines, newLines)] of
    section 4.1, whose body is not in the sources. *)
Definition computeEditScript (oldLines newLines : list string) : EditScript :=
  runs (steps oldLines newLines) 0 0.

Definition range_indices (r : Range) : list nat := seq (fst r) (snd r - fst r).

Definition key (i : nat) : string := toString (N.of_nat i).

(** Modelled from the spec: the remap algorithm of section 4.2, steps 1
    to 3, which the sources do not have.  An [equal] run carries the
    recorded times over to the new indices, an inserted or replacing
    line gets [now], a deleted or replaced line loses its time. *)
Definition remap_op (prior : LineMap) (now : string) (acc : LineMap) (op : Op)
  : LineMap :=
  let stamp newRange acc :=
    fold_left (fun a j => set a (key j) now) (range_indices newRange) acc in
  match op with
  | equal oldRange newRange =>
      fold_left
        (fun a i =>
           match get prior (key i) with
           | Some t => set a (key (fst newRange + (i - fst oldRange))) t
           | None => a
           end)
        (range_indices oldRange) acc
  | insert newRange => stamp newRange acc
  | delete _ => acc
  | replace _ newRange => stamp newRange acc
  end.

Definition remap (prior : LineMap) (script : EditScript) (now : string) : LineMap :=
  fold_left (remap_op prior now) script [].

(** Modelled from the spec: the line map [recordChange] leaves for a
    document whose content went from [oldContent] to [newContent]. *)
Definition recordChange (prior : LineMap) (oldContent newContent : list string)
    (now : string) : LineMap :=
  remap prior (computeEditScript oldContent newContent) now.

(** A line put in at position [k]. *)
Definition insert_line (k : nat) (line : string) (content : list string)
  : list string :=
  (firstn k content ++ line :: skipn k content)%list.

End Spec.

(** ** Auxiliary notions of the proofs *)

(** A bound below which no array index of the rest of an object may lie. *)
Definition above (lo : option N) (n : N) : bool :=
  match lo with
  | Some l => (l <? n)%N
  | None => true
  end.

(** One more property assigned to an object under construction. *)
Definition assign {V : Type} (acc : JsObject V) (kv : string * V) : JsObject V :=
  set acc (fst kv) (snd kv).

(** A text of white space only. *)
Fixpoint blank (w : string) : bool :=
  match w with
  | "" => true
  | String c r => JSON.is_ws c && blank r
  end.

(** A property with its value serialized, as [JSON.object] takes it. *)
Definition printed {V : Type} (print_value : V -> string) (kv : string * V)
  : string * string :=
  (fst kv, print_value (snd kv)).

(** The characters the members of an object take. *)
Fixpoint members_length (ms : list (string * string)) : nat :=
  match ms with
  | [] => 0
  | m :: ms' => String.length (JSON.member m) + members_length ms'
  end.

(** The store after [metadata[filePath][lineNumber.toString()] = timestamp],
    with the line map of [filePath] made first when it has none: the two
    assignments of [updateLineTimestamp]. *)
Definition stamped (metadata : Timestamps) (filePath : string) (lineNumber : N)
    (timestamp : string) : Timestamps :=
  let metadata :=
    if negb (has metadata filePath) then set metadata filePath [] else metadata in
  match get metadata filePath with
  | Some lines => set metadata filePath (set lines (toString lineNumber) timestamp)
  | None => metadata
  end.

(** How [updateLineTimestamp] settles once the store is written: as the
    overlay it ends with does. *)
Definition overlay_outcome (ws : Workspace) (metadata : Timestamps) : Outcome unit :=
  match Main.overlayTimestamps ws (activeView ws) metadata with
  | Resolved _ => Resolved tt
  | Rejected e => Rejected e
  | Unmodelled => Unmodelled
  end.

(** The vault after the calls of one [updateLineTimestamp] that got as far
    as [adapter.write] with [text]. *)
Definition after_calls (text : string) (v : Vault) : Vault :=
  called (OpAdapterWrite text)
    (called (OpCreate text) (called OpCreateFolder (called OpRead v))).

(** ** A small vault to evaluate the plugin on

    One note, [a.md], of three lines with a time each, in a vault that can
    be read and written; the note is open in the active view. *)

Definition T1 : string := "2024-05-01T10:00:00.000Z".
Definition T1' : string := "2024-05-01T10:01:00.000Z".
Definition T1'' : string := "2024-05-01T10:02:00.000Z".
Definition T2 : string := "2024-05-01T10:05:00.000Z".

Definition sample_lines : LineMap := [("0", T1); ("1", T1'); ("2", T1'')].
Definition sample_store : Timestamps := [("a.md", sample_lines)].
Definition sample_content : list string := ["a"; "b"; "c"].

Definition sample_vault : Vault :=
  mkVault (StoreFile (JSON.stringify sample_store)) true true [].

Definition fresh_vault : Vault := mkVault NoFolder true true [].

Definition sample_file : TFile := mkFile "a.md" "a.md".

Definition sample_workspace (content : list string) (cursor : N) : Workspace :=
  mkWorkspace (Some sample_file)
    (Some (mkView (length content) (mkEditor content cursor))).

(** Events that are all editor changes: no timer goes off among them. *)
Definition editor_changes (es : list Main.Event) : bool :=
  forallb (fun e => match e with
                    | Main.EditorChange _ _ _ => true
                    | Main.TimerExpired => false
                    end) es.

(** The plugin object [onload] leaves. *)
Definition loaded_plugin : Main.Plugin := Main.mkPlugin false None.

(** [updatedTimestamp] is set exactly while the timer is pending. *)
Definition debounced (this : Main.Plugin) : Prop :=
  (Main.updatedTimestamp this = true /\ Main.updateTimer this = Some (Main.After 2000))
  \/ (Main.updatedTimestamp this = false /\ Main.updateTimer this = None).

(** The calls to [adapter.write] in a log of vault calls. *)
Definition adapter_writes (log : list VaultOp) : nat :=
  length (filter (fun op => match op with OpAdapterWrite _ => true | _ => false end) log).

(** One editor change as [src/src/main.ts] gets it: the workspace, the
    editor and the time. *)
Definition Change : Type := Workspace * Editor * string.

(** The vault after [src/src/main.ts] has handled the changes one after
    the other. *)
Definition handle_all (changes : list Change) (this : SrcMain.Plugin) (v : Vault)
  : Vault :=
  fold_left
    (fun v c => snd (SrcMain.handleEditorChange (fst (fst c)) (snd (fst c)) (snd c) this v))
    changes v.

(** A change made with a file active. *)
Definition has_active_file (c : Change) : bool :=
  match activeFile (fst (fst c)) with Some _ => true | None => false end.

(** The lines of a view that [overlayTimestamps] gives a badge: those with
    a time that is not empty and a text that is not empty. *)
Definition badge_of (view : MarkdownView) (lines : LineMap) (i : N) : option Badge :=
  match get lines (toString i) with
  | Some timestamp =>
      if truthy timestamp && truthy (getLine (editor view) i)
      then Some (i, timestamp) else None
  | None => None
  end.

(** [i], [i + 1], ... : [n] line numbers. *)
Fixpoint line_numbers (i : N) (n : nat) : list N :=
  match n with
  | O => []
  | S n' => i :: line_numbers (i + 1) n'
  end.

Definition badges (view : MarkdownView) (lines : LineMap) (i : N) (n : nat)
  : list Badge :=
  flat_map (fun j => match badge_of view lines j with Some b => [b] | None => [] end)
    (line_numbers i n).


(** A note in a folder, filed under its path and looked up by its name,
    in a vault whose store is the empty object. *)
Definition folder_note : TFile := mkFile "notes/a.md" "a.md".

Definition folder_workspace : Workspace :=
  mkWorkspace (Some folder_note) (Some (mkView 3 (mkEditor sample_content 1))).

Definition empty_store_vault : Vault := mkVault (StoreFile "{}") true true [].

Definition T3 : string := "2024-05-01T10:05:00.500Z".
Definition T4 : string := "2024-05-01T10:05:01.000Z".

(** An editor change of the note in a folder with the cursor on [line],
    handled by [src/main.ts] with the plugin as [onload] leaves it. *)
Definition folder_change (line : N) (now : string) (v : Vault)
  : Outcome unit * Main.Plugin * Vault :=
  Main.handleEditorChange folder_workspace (mkEditor sample_content line) now
    loaded_plugin v.

(** * [src/main.ts]: calls of the handler that overlap

    [handleEditorChange] is an async function and nothing serialises its
    calls: the host may deliver the next event while a call waits at an
    [await].  Here a call is cut at the vault calls it awaits.  [start]
    is what runs when the event is delivered, up to [adapter.read];
    [resume] is what runs when the awaited vault call settles, up to the
    next one or to the end of the handler.  A vault call takes effect,
    and is recorded, when it settles; a call sees the workspace of its
    event throughout, as in [Main.handleEditorChange].  [Main.step] is
    the schedule in which every call settles before the next event is
    delivered. *)
Module Awaits.

(** What a call waits for, with the locals it goes on with. *)
Inductive Pending :=
| AwaitRead (ws : Workspace) (filePath : string) (lineNumber : N)
    (timestamp : string)
| AwaitCreateFolder (ws : Workspace) (metadata : Timestamps)
| AwaitCreate (ws : Workspace) (metadata : Timestamps)
| AwaitWrite (ws : Workspace) (metadata : Timestamps).

Inductive Progress :=
| Waiting (p : Pending)
| Settled (r : Outcome unit).

(** The guard, read when the event is delivered. *)
Definition start (ws : Workspace) (editor : Editor) (now : string)
    (this : Main.Plugin) : Progress :=
  match activeFile ws with
  | Some file =>
      if negb (Main.updatedTimestamp this) then
        Waiting (AwaitRead ws (path file) (cursor_from_line editor) now)
      else Settled (Resolved tt)
  | None => Settled (Resolved tt)
  end.

(** After [saveMetadata]: the overlay, and when it did not raise the
    lines of the handler after [await this.updateLineTimestamp(...)],
    which read the plugin object as it is by then. *)
Definition finish (ws : Workspace) (metadata : Timestamps) (this : Main.Plugin)
  : Main.Plugin :=
  match Main.overlayTimestamps ws (activeView ws) metadata with
  | Resolved _ =>
      let this := Main.mkPlugin true (Main.updateTimer this) in
      match Main.updateTimer this with
      | None => Main.mkPlugin (Main.updatedTimestamp this) (Some (Main.After 2000))
      | Some _ => this
      end
  | _ => this
  end.

Definition resume (p : Pending) (this : Main.Plugin) (v : Vault)
  : Progress * Main.Plugin * Vault :=
  match p with
  | AwaitRead ws filePath lineNumber timestamp =>
      match Main.loadMetadata v with
      | (Resolved metadata, v') =>
          (Waiting (AwaitCreateFolder ws
                      (stamped metadata filePath lineNumber timestamp)),
           this, v')
      | (Rejected e, v') => (Settled (Rejected e), this, v')
      | (Unmodelled, v') => (Settled Unmodelled, this, v')
      end
  | AwaitCreateFolder ws metadata =>
      (Waiting (AwaitCreate ws metadata), this, snd (vault_createFolder v))
  | AwaitCreate ws metadata =>
      match vault_create (JSON.stringify metadata) v with
      | (Resolved _, v') =>
          (Settled (overlay_outcome ws metadata), finish ws metadata this, v')
      | (_, v') => (Waiting (AwaitWrite ws metadata), this, v')
      end
  | AwaitWrite ws metadata =>
      match adapter_write (JSON.stringify metadata) v with
      | (Resolved _, v') =>
          (Settled (overlay_outcome ws metadata), finish ws metadata this, v')
      | (Rejected e, v') => (Settled (Rejected e), this, v')
      | (Unmodelled, v') => (Settled Unmodelled, this, v')
      end
  end.

(** What happens next: the host delivers an editor change, the vault call
    of the [k]-th waiting call settles, or the timer goes off. *)
Inductive Tick :=
| Deliver (ws : Workspace) (editor : Editor) (now : string)
| Settle (k : nat)
| Timer.

Definition State : Type := Main.Plugin * Vault * list Pending.

Definition step (s : State) (t : Tick) : State :=
  let '(this, v, waiting) := s in
  match t with
  | Deliver ws editor now =>
      match start ws editor now this with
      | Waiting p => (this, v, (waiting ++ [p])%list)
      | Settled _ => s
      end
  | Settle k =>
      match nth_error waiting k with
      | Some p =>
          match resume p this v with
          | (Waiting p', this', v') =>
              (this', v', (firstn k waiting ++ p' :: skipn (S k) waiting)%list)
          | (Settled _, this', v') =>
              (this', v', (firstn k waiting ++ skipn (S k) waiting)%list)
          end
      | None => s
      end
  | Timer =>
      match Main.updateTimer this with
      | Some _ => (Main.timer_expired this, v, waiting)
      | None => s
      end
  end.

Definition run (s : State) (ts : list Tick) : State := fold_left step ts s.

(** One call from its event to its end, with nothing in between. *)
Definition whole (ws : Workspace) (editor : Editor) (now : string) : list Tick :=
  [Deliver ws editor now; Settle 0; Settle 0; Settle 0; Settle 0].

End Awaits.

(** * Properties *)

(** ** Strings and keys *)

Lemma append_nil_r (s : string) : s ++ "" = s.
Proof. induction s as [|c s IH]; simpl; [reflexivity | now rewrite IH]. Qed.

Lemma append_assoc (a b c : string) : (a ++ b) ++ c = a ++ (b ++ c).
Proof. induction a as [|x a IH]; simpl; [reflexivity | now rewrite IH]. Qed.

Lemma length_append (a b : string) :
  String.length (a ++ b) = String.length a + String.length b.
Proof. induction a as [|x a IH]; simpl; [reflexivity | now rewrite IH]. Qed.

Lemma toString_uint (n : N) :
  NilZero.uint_of_string (toString n) = Some (N.to_uint n).
Proof.
  unfold toString. apply NilZero.usu.
  destruct n as [|p]; simpl; [discriminate|].
  intros H. pose proof (DecimalN.Unsigned.of_to (Npos p)) as E.
  simpl in E. rewrite H in E. discriminate.
Qed.

Lemma toString_inj (n n' : N) : toString n = toString n' -> n = n'.
Proof.
  intros H. apply DecimalN.Unsigned.to_uint_inj.
  pose proof (toString_uint n) as A. pose proof (toString_uint n') as B.
  rewrite H in A. congruence.
Qed.

Lemma array_index_toString (k : string) (n : N) :
  array_index k = Some n -> k = toString n.
Proof.
  unfold array_index. destruct (NilZero.uint_of_string k) as [u|]; [|discriminate].
  destruct (toString (N.of_uint u) =? k) eqn:E; simpl; [|discriminate].
  destruct (N.of_uint u <=? 4294967294)%N; [|discriminate].
  intros [= <-]. symmetry. now apply String.eqb_eq.
Qed.

Lemma array_index_inj (k k' : string) (n : N) :
  array_index k = Some n -> array_index k' = Some n -> k = k'.
Proof.
  intros A B. apply array_index_toString in A, B. congruence.
Qed.

Lemma array_index_of_line (n : N) :
  array_index (toString n) = if (n <=? 4294967294)%N then Some n else None.
Proof.
  unfold array_index. rewrite toString_uint, DecimalN.Unsigned.of_to.
  now rewrite String.eqb_refl.
Qed.

(** ** Reading and assigning properties *)

Section ObjectFacts.
Context {V : Type}.
Implicit Types (o : JsObject V) (k : string) (v : V).

Lemma get_overwrite_same o k v :
  has o k = true -> get (overwrite o k v) k = Some v.
Proof.
  unfold has. induction o as [|[k0 v0] o IH]; simpl; [discriminate|].
  destruct (k =? k0) eqn:E; simpl; rewrite E; auto.
Qed.

Lemma get_overwrite_other o k v k' :
  k' <> k -> get (overwrite o k v) k' = get o k'.
Proof.
  intros D. induction o as [|[k0 v0] o IH]; simpl; [reflexivity|].
  destruct (k =? k0) eqn:E; simpl.
  - apply String.eqb_eq in E. subst k0.
    destruct (k' =? k) eqn:E'; [apply String.eqb_eq in E'; contradiction | reflexivity].
  - now rewrite IH.
Qed.

Lemma get_insert_index_same o n k v :
  get o k = None -> get (insert_index o n k v) k = Some v.
Proof.
  induction o as [|[k0 v0] o IH]; simpl.
  - now rewrite String.eqb_refl.
  - destruct (k =? k0) eqn:E; [discriminate|]. intros G.
    destruct (array_index k0) as [n0|]; [destruct (n <? n0)%N|]; simpl;
      rewrite ?String.eqb_refl, ?E; auto.
Qed.

Lemma get_insert_index_other o n k v k' :
  k' <> k -> get (insert_index o n k v) k' = get o k'.
Proof.
  intros D. apply String.eqb_neq in D.
  induction o as [|[k0 v0] o IH]; simpl; [now rewrite D|].
  destruct (array_index k0) as [n0|]; [destruct (n <? n0)%N|]; simpl;
    rewrite ?D, ?IH; reflexivity.
Qed.

Lemma get_snoc o k v k' :
  get (o ++ [(k, v)])%list k' =
  match get o k' with
  | Some x => Some x
  | None => if k' =? k then Some v else None
  end.
Proof.
  induction o as [|[k0 v0] o IH]; simpl; [reflexivity|].
  destruct (k' =? k0); [reflexivity | exact IH].
Qed.

(** After [o[k] = v], [o[k]] is [v]. *)
Lemma get_set_same o k v : get (set o k v) k = Some v.
Proof.
  unfold set. destruct (has o k) eqn:H.
  - now apply get_overwrite_same.
  - unfold has in H. destruct (get o k) eqn:G; [discriminate|].
    destruct (array_index k).
    + now apply get_insert_index_same.
    + now rewrite get_snoc, G, String.eqb_refl.
Qed.

(** [o[k] = v] leaves every other property as it was. *)
Lemma get_set_other o k v k' : k' <> k -> get (set o k v) k' = get o k'.
Proof.
  intros D. unfold set. destruct (has o k).
  - now apply get_overwrite_other.
  - destruct (array_index k).
    + now apply get_insert_index_other.
    + rewrite get_snoc. apply String.eqb_neq in D. rewrite D.
      now destruct (get o k').
Qed.

Lemma keys_overwrite o k v : keys (overwrite o k v) = keys o.
Proof.
  induction o as [|[k0 v0] o IH]; simpl; [reflexivity|].
  destruct (k =? k0); simpl; [reflexivity | now rewrite IH].
Qed.

Lemma get_None_keys o k : get o k = None <-> existsb (String.eqb k) (keys o) = false.
Proof.
  induction o as [|[k0 v0] o IH]; simpl; [tauto|].
  destruct (k =? k0); simpl; [split; discriminate | exact IH].
Qed.

Lemma keys_snoc o k v : keys (o ++ [(k, v)])%list = (keys o ++ [k])%list.
Proof. unfold keys. now rewrite map_app. Qed.
End ObjectFacts.

(** ** The enumeration order is kept by assignment *)


Lemma enumeration_order_cons lo k ks :
  enumeration_order lo (k :: ks) =
  match array_index k with
  | Some n => above lo n && enumeration_order (Some n) ks
  | None => names_only (k :: ks)
  end.
Proof. reflexivity. Qed.

Lemma names_only_In ks k :
  names_only ks = true -> In k ks -> array_index k = None.
Proof.
  induction ks as [|k0 ks IH]; simpl; [tauto|].
  destruct (array_index k0) eqn:A; [discriminate|].
  intros H [->|I]; [exact A|].
  apply andb_prop in H. now apply IH.
Qed.

Lemma names_only_order lo ks : names_only ks = true -> enumeration_order lo ks = true.
Proof.
  destruct ks as [|k ks]; [reflexivity|]. intros H.
  rewrite enumeration_order_cons.
  now rewrite (names_only_In (k :: ks) k H (or_introl eq_refl)).
Qed.

Lemma names_only_snoc ks k :
  names_only ks = true -> array_index k = None ->
  existsb (String.eqb k) ks = false -> names_only (ks ++ [k])%list = true.
Proof.
  induction ks as [|k0 ks IH]; simpl; intros H A E.
  - now rewrite A.
  - destruct (array_index k0); [discriminate|].
    apply andb_prop in H as [H1 H2]. apply orb_false_elim in E as [E1 E2].
    rewrite existsb_app. simpl. rewrite String.eqb_sym, E1, orb_false_r.
    rewrite H1. simpl. now apply IH.
Qed.

Lemma names_only_snoc_inv ks k :
  names_only (ks ++ [k])%list = true -> existsb (String.eqb k) ks = false.
Proof.
  induction ks as [|k0 ks IH]; simpl; [reflexivity|].
  destruct (array_index k0); [discriminate|]. intros H.
  apply andb_prop in H as [H1 H2]. rewrite (IH H2), orb_false_r.
  apply negb_true_iff in H1. rewrite existsb_app in H1.
  apply orb_false_elim in H1 as [_ H1]. simpl in H1.
  rewrite orb_false_r in H1. now rewrite String.eqb_sym.
Qed.

Lemma order_snoc_name lo ks k :
  enumeration_order lo ks = true -> array_index k = None ->
  existsb (String.eqb k) ks = false ->
  enumeration_order lo (ks ++ [k])%list = true.
Proof.
  revert lo. induction ks as [|k0 ks IH]; intros lo H A E.
  - simpl. now rewrite A.
  - change ((k0 :: ks) ++ [k])%list with (k0 :: (ks ++ [k]))%list.
    rewrite enumeration_order_cons in *.
    destruct (array_index k0) as [n0|] eqn:A0.
    + apply andb_prop in H as [H1 H2]. rewrite H1. simpl.
      simpl in E. apply orb_false_elim in E as [_ E]. now apply IH.
    + change (k0 :: (ks ++ [k]))%list with ((k0 :: ks) ++ [k])%list.
      now apply names_only_snoc.
Qed.

Lemma order_lower l ks k n :
  enumeration_order (Some l) ks = true -> In k ks -> array_index k = Some n ->
  (l < n)%N.
Proof.
  revert l. induction ks as [|k0 ks IH]; intros l H I A; [destruct I|].
  rewrite enumeration_order_cons in H.
  destruct (array_index k0) as [n0|] eqn:A0.
  - apply andb_prop in H as [H1 H2]. simpl in H1. apply N.ltb_lt in H1.
    destruct I as [->|I].
    + congruence.
    + specialize (IH _ H2 I A). lia.
  - rewrite (names_only_In _ _ H I) in A. discriminate.
Qed.

Section OrderFacts.
Context {V : Type}.
Implicit Types (o : JsObject V) (k : string) (v : V).

Lemma order_insert_index o lo n k v :
  enumeration_order lo (keys o) = true -> array_index k = Some n ->
  above lo n = true -> get o k = None ->
  enumeration_order lo (keys (insert_index o n k v)) = true.
Proof.
  revert lo. induction o as [|[k0 v0] o IH]; intros lo H A L G.
  - change (keys (insert_index [] n k v)) with [k].
    now rewrite enumeration_order_cons, A, L.
  - simpl in G. destruct (k =? k0) eqn:E; [discriminate|].
    change (keys ((k0, v0) :: o)) with (k0 :: keys o) in H.
    rewrite enumeration_order_cons in H.
    simpl insert_index.
    destruct (array_index k0) as [n0|] eqn:A0.
    + apply andb_prop in H as [H1 H2].
      destruct (n <? n0)%N eqn:C.
      * change (keys ((k, v) :: (k0, v0) :: o)) with (k :: k0 :: keys o).
        rewrite enumeration_order_cons, A, L. rewrite andb_true_l.
        rewrite enumeration_order_cons, A0. unfold above. now rewrite C, H2.
      * change (keys ((k0, v0) :: insert_index o n k v))
          with (k0 :: keys (insert_index o n k v)).
        rewrite enumeration_order_cons, A0, H1. rewrite andb_true_l.
        apply IH; auto. simpl. apply N.ltb_lt. apply N.ltb_ge in C.
        assert (n <> n0).
        { intros ->. apply String.eqb_neq in E. apply E.
          eapply array_index_inj; eauto. }
        lia.
    + change (keys ((k, v) :: (k0, v0) :: o)) with (k :: k0 :: keys o).
      rewrite enumeration_order_cons, A, L. rewrite andb_true_l.
      apply names_only_order. exact H.
Qed.

(** Assignment keeps an object in enumeration order. *)
Lemma well_formed_set o k v :
  well_formed o = true -> well_formed (set o k v) = true.
Proof.
  unfold well_formed, set. intros H. destruct (has o k) eqn:Hs.
  - now rewrite keys_overwrite.
  - unfold has in Hs. destruct (get o k) eqn:G; [discriminate|].
    destruct (array_index k) as [n|] eqn:A.
    + now apply order_insert_index.
    + rewrite keys_snoc. apply order_snoc_name; auto.
      now apply get_None_keys.
Qed.

Lemma order_snoc_inv ks lo k :
  enumeration_order lo (ks ++ [k])%list = true ->
  existsb (String.eqb k) ks = false /\
  forall n, array_index k = Some n ->
            Forall (fun k' => exists n', array_index k' = Some n' /\ (n' < n)%N) ks.
Proof.
  revert lo. induction ks as [|k0 ks IH]; intros lo H.
  - split; [reflexivity | constructor].
  - change ((k0 :: ks) ++ [k])%list with (k0 :: (ks ++ [k]))%list in H.
    rewrite enumeration_order_cons in H.
    destruct (array_index k0) as [n0|] eqn:A0.
    + apply andb_prop in H as [H1 H2].
      destruct (IH _ H2) as [E F].
      assert (L : forall n, array_index k = Some n -> (n0 < n)%N).
      { intros n A. eapply order_lower; eauto. apply in_or_app. right. now left. }
      split.
      * simpl. rewrite E, orb_false_r. apply String.eqb_neq. intros ->.
        specialize (L _ A0). lia.
      * intros n A. constructor; [exists n0; auto | auto].
    + assert (A : array_index k = None).
      { eapply names_only_In; eauto. right. apply in_or_app. right. now left. }
      split.
      * change (k0 :: (ks ++ [k]))%list with ((k0 :: ks) ++ [k])%list in H.
        now apply names_only_snoc_inv.
      * intros n A'. congruence.
Qed.

Lemma insert_index_snoc o n k v :
  Forall (fun k' => exists n', array_index k' = Some n' /\ (n' < n)%N) (keys o) ->
  insert_index o n k v = (o ++ [(k, v)])%list.
Proof.
  induction o as [|[k0 v0] o IH]; simpl; intros F; [reflexivity|].
  inversion F as [|? ? [n0 [A0 L]] F']; subst.
  rewrite A0. replace (n <? n0)%N with false.
  - now rewrite IH.
  - symmetry. apply N.ltb_ge. lia.
Qed.

(** Assigning the next property of an object in enumeration order puts it
    last. *)
Lemma set_snoc o k v :
  well_formed (o ++ [(k, v)])%list = true -> set o k v = (o ++ [(k, v)])%list.
Proof.
  unfold well_formed. rewrite keys_snoc. intros H.
  apply order_snoc_inv in H as [E F].
  unfold set, has. apply get_None_keys in E. rewrite E.
  destruct (array_index k) as [n|] eqn:A; [|reflexivity].
  apply insert_index_snoc. now apply F.
Qed.

Lemma names_only_prefix (ks ks' : list string) :
  names_only (ks ++ ks')%list = true -> names_only ks = true.
Proof.
  induction ks as [|x l IHl]; simpl; [reflexivity|].
  destruct (array_index x); [discriminate|]. intros H.
  apply andb_prop in H as [H1 H2]. rewrite (IHl H2), andb_true_r.
  apply negb_true_iff in H1. rewrite existsb_app in H1.
  apply orb_false_elim in H1 as [H1 _]. now rewrite H1.
Qed.

Lemma order_prefix ks ks' lo :
  enumeration_order lo (ks ++ ks')%list = true -> enumeration_order lo ks = true.
Proof.
  revert lo. induction ks as [|k ks IH]; intros lo H; [reflexivity|].
  change ((k :: ks) ++ ks')%list with (k :: (ks ++ ks'))%list in H.
  rewrite enumeration_order_cons in *. destruct (array_index k) eqn:A.
  - apply andb_prop in H as [H1 H2]. rewrite H1. simpl. eauto.
  - change (k :: (ks ++ ks'))%list with ((k :: ks) ++ ks')%list in H.
    now apply names_only_prefix in H.
Qed.


(** Building an object property by property, in its own order, gives the
    object back. *)
Lemma assign_all (o acc : JsObject V) :
  well_formed (acc ++ o)%list = true -> fold_left assign o acc = (acc ++ o)%list.
Proof.
  revert acc. induction o as [|[k v] o IH]; intros acc H; simpl.
  - now rewrite app_nil_r.
  - assert (E : (acc ++ (k, v) :: o = (acc ++ [(k, v)]) ++ o)%list)
      by now rewrite <- app_assoc.
    rewrite E in H. unfold assign at 2. simpl. rewrite set_snoc.
    + rewrite IH; [now rewrite <- app_assoc | exact H].
    + unfold well_formed in *. unfold keys in *. rewrite map_app in H.
      now apply order_prefix in H.
Qed.
End OrderFacts.

(** ** [JSON.parse] reads back what [JSON.stringify] writes *)

Lemma parse_chars_escape_char (c : ascii) (t : string) :
  JSON.parse_chars (JSON.escape_char c ++ t)
  = JSON.prepend (String c "") (JSON.parse_chars t).
Proof.
  destruct c as [b0 b1 b2 b3 b4 b5 b6 b7].
  destruct b0, b1, b2, b3, b4, b5, b6, b7; reflexivity.
Qed.

Lemma parse_chars_escape (s rest : string) :
  JSON.parse_chars (JSON.escape s ++ String dquote rest) = Some (s, rest).
Proof.
  induction s as [|c s IH]; [reflexivity|].
  simpl JSON.escape. now rewrite append_assoc, parse_chars_escape_char, IH.
Qed.


Lemma skip_ws_blank (w s : string) :
  blank w = true -> JSON.skip_ws (w ++ s) = JSON.skip_ws s.
Proof.
  induction w as [|c w IH]; simpl; [reflexivity|].
  intros H. apply andb_prop in H as [H1 H2]. now rewrite H1, IH.
Qed.

Lemma blank_app (a b : string) : blank a = true -> blank b = true -> blank (a ++ b) = true.
Proof.
  induction a as [|c a IH]; simpl; [auto|].
  intros H B. apply andb_prop in H as [H1 H2]. now rewrite H1, IH.
Qed.

Lemma parse_string_quote (w s rest : string) :
  blank w = true ->
  JSON.parse_string (w ++ JSON.quote s ++ rest) = Some (s, rest).
Proof.
  intros B. unfold JSON.parse_string. rewrite skip_ws_blank by exact B.
  unfold JSON.quote. simpl. rewrite append_assoc. simpl.
  apply parse_chars_escape.
Qed.

Section ObjectRoundTrip.
Context {V : Type}.
Variable parse_value : string -> option (V * string).
Variable print_value : V -> string.
Variable good : V -> Prop.
Hypothesis parse_print : forall v rest,
  good v -> parse_value (String space (print_value v ++ rest)) = Some (v, rest).

Local Abbreviation printed := (printed print_value).


Lemma parse_members_S fuel (acc : JsObject V) s :
  JSON.parse_members parse_value (S fuel) acc s
  = match JSON.parse_string s with
    | Some (k, r1) =>
        match JSON.skip_ws r1 with
        | String c r2 =>
            if (c =? ":")%char then
              match parse_value r2 with
              | Some (v, r3) =>
                  match JSON.skip_ws r3 with
                  | String d r4 =>
                      if (d =? ",")%char
                      then JSON.parse_members parse_value fuel (set acc k v) r4
                      else if (d =? "}")%char then Some (set acc k v, r4)
                      else None
                  | "" => None
                  end
              | None => None
              end
            else None
        | "" => None
        end
    | None => None
    end.
Proof. reflexivity. Qed.

Lemma member_text k v tail :
  JSON.member (printed (k, v)) ++ tail
  = JSON.quote k ++ String ":" (String space (print_value v ++ tail)).
Proof.
  unfold JSON.member, printed. cbn [fst snd]. now rewrite !append_assoc.
Qed.

Lemma parse_members_step fuel acc w k v tail :
  blank w = true -> good v ->
  JSON.parse_members parse_value (S fuel) acc
    (w ++ JSON.member (printed (k, v)) ++ tail)
  = match JSON.skip_ws tail with
    | String d r4 =>
        if (d =? ",")%char
        then JSON.parse_members parse_value fuel (set acc k v) r4
        else if (d =? "}")%char then Some (set acc k v, r4)
        else None
    | "" => None
    end.
Proof.
  intros B G.
  rewrite parse_members_S, member_text, parse_string_quote by exact B.
  change (JSON.skip_ws (String ":" (String space (print_value v ++ tail))))
    with (String ":" (String space (print_value v ++ tail))).
  change ((":" =? ":")%char) with true.
  cbv iota beta. now rewrite parse_print.
Qed.

Lemma join_cons sep x y l :
  JSON.join sep (x :: y :: l) = x ++ sep ++ JSON.join sep (y :: l).
Proof. reflexivity. Qed.

Lemma parse_members_join ms : forall acc fuel w w1 w2 rest,
  ms <> [] -> length ms <= fuel -> Forall good (map snd ms) ->
  blank w = true -> blank w1 = true -> blank w2 = true ->
  JSON.parse_members parse_value fuel acc
    (w ++ JSON.join (String "," w1) (map JSON.member (map printed ms))
       ++ w2 ++ String "}" rest)
  = Some (fold_left assign ms acc, rest).
Proof.
  induction ms as [|[k v] ms IH]; intros acc fuel w w1 w2 rest N L G B B1 B2;
    [contradiction|].
  destruct fuel as [|fuel]; [simpl in L; lia|].
  inversion G as [|? ? Gv Gs]; subst.
  destruct ms as [|kv2 ms].
  - cbn [map JSON.join]. rewrite parse_members_step by assumption.
    rewrite skip_ws_blank by exact B2. reflexivity.
  - cbn [map]. rewrite join_cons. rewrite !append_assoc.
    rewrite parse_members_step by assumption.
    change (JSON.skip_ws (String "," w1 ++ ?x)) with (String "," (w1 ++ x)).
    change (("," =? ",")%char) with true. cbv iota beta.
    apply (IH (set acc k v) fuel w1 w1 w2 rest); auto.
    + discriminate.
    + simpl in L |- *. lia.
Qed.

Lemma object_cons indent m ms rest :
  JSON.object indent (m :: ms) ++ rest
  = String "{"
      (String newline (indent ++ "  ")
       ++ JSON.join (String "," (String newline (indent ++ "  ")))
            (map JSON.member (m :: ms))
       ++ String newline indent ++ String "}" rest).
Proof.
  unfold JSON.object.
  repeat (cbn [String.append]; rewrite ?append_assoc). reflexivity.
Qed.

Lemma join_member_starts sep m ms t :
  exists t', JSON.join sep (map JSON.member (m :: ms)) ++ t = String dquote t'.
Proof.
  destruct ms; cbn [map JSON.join]; unfold JSON.member at 1, JSON.quote;
    cbn [String.append]; eauto.
Qed.

(** An object in enumeration order is read back from its text. *)
Lemma parse_object_printed (o : JsObject V) fuel w indent rest :
  well_formed o = true -> length o <= fuel -> Forall good (map snd o) ->
  blank w = true -> blank indent = true ->
  JSON.parse_object parse_value fuel
    (w ++ JSON.object indent (map printed o) ++ rest)
  = Some (o, rest).
Proof.
  intros W L G B Bi. unfold JSON.parse_object.
  rewrite skip_ws_blank by exact B.
  destruct o as [|kv o]; [reflexivity|].
  change (map printed (kv :: o)) with (printed kv :: map printed o).
  rewrite object_cons.
  change (JSON.skip_ws (String "{" ?x)) with (String "{" x).
  change (("{" =? "{")%char) with true. cbv iota beta.
  assert (Bn : blank (String newline (indent ++ "  ")) = true).
  { cbn [blank]. rewrite blank_app; auto. }
  rewrite skip_ws_blank by exact Bn.
  destruct (join_member_starts (String "," (String newline (indent ++ "  ")))
              (printed kv) (map printed o)
              (String newline indent ++ String "}" rest)) as [t' E].
  rewrite E.
  change (JSON.skip_ws (String dquote t')) with (String dquote t').
  change ((dquote =? "}")%char) with false. cbv iota beta. rewrite <- E.
  change (printed kv :: map printed o) with (map printed (kv :: o)).
  rewrite parse_members_join; auto;
    try discriminate; try (cbn [blank]; now rewrite Bi).
  rewrite (assign_all (kv :: o) []); [reflexivity | exact W].
Qed.
End ObjectRoundTrip.


Lemma join_length sep ms :
  members_length ms <= String.length (JSON.join sep (map JSON.member ms)).
Proof.
  induction ms as [|m ms IH]; [simpl; lia|].
  destruct ms as [|m2 ms].
  - cbn [members_length map JSON.join]. lia.
  - change (map JSON.member (m :: m2 :: ms))
      with (JSON.member m :: JSON.member m2 :: map JSON.member ms).
    rewrite join_cons, !length_append.
    change (JSON.member m2 :: map JSON.member ms) with (map JSON.member (m2 :: ms)).
    cbn [members_length] in *. lia.
Qed.

Lemma object_length indent ms :
  members_length ms <= String.length (JSON.object indent ms).
Proof.
  destruct ms as [|m ms]; [simpl; lia|].
  pose proof (object_cons indent m ms "") as E.
  rewrite append_nil_r in E. rewrite E.
  cbn [String.length]. rewrite !length_append.
  pose proof (join_length (String "," (String newline (indent ++ "  "))) (m :: ms)).
  lia.
Qed.

Lemma member_length m : 1 + String.length (snd m) <= String.length (JSON.member m).
Proof.
  unfold JSON.member, JSON.quote. cbn [String.length].
  rewrite !length_append. cbn [String.length]. lia.
Qed.

Lemma members_length_count ms : length ms <= members_length ms.
Proof.
  induction ms as [|m ms IH]; cbn [length members_length]; [lia|].
  pose proof (member_length m). lia.
Qed.

Lemma members_length_value ms m :
  In m ms -> String.length (snd m) <= members_length ms.
Proof.
  induction ms as [|m0 ms IH]; cbn [In members_length]; [tauto|].
  intros [->|I].
  - pose proof (member_length m). lia.
  - specialize (IH I). lia.
Qed.

Lemma stringify_lines_printed (o : LineMap) :
  JSON.stringify_lines o = JSON.object "  " (map (printed JSON.quote) o).
Proof. reflexivity. Qed.

Lemma stringify_printed (m : Timestamps) :
  JSON.stringify m = JSON.object "" (map (printed JSON.stringify_lines) m).
Proof. reflexivity. Qed.

Lemma length_lines_text (o : LineMap) : length o <= String.length (JSON.stringify_lines o).
Proof.
  rewrite stringify_lines_printed.
  pose proof (object_length "  " (map (printed JSON.quote) o)) as A.
  pose proof (members_length_count (map (printed JSON.quote) o)) as B.
  rewrite length_map in B. lia.
Qed.

(** A line map in enumeration order is read back from its text. *)
Lemma parse_lines_text (o : LineMap) fuel rest :
  well_formed o = true -> length o <= fuel ->
  JSON.parse_object JSON.parse_string fuel
    (String space (JSON.stringify_lines o ++ rest)) = Some (o, rest).
Proof.
  intros W L. rewrite stringify_lines_printed.
  apply (parse_object_printed JSON.parse_string JSON.quote (fun _ => True))
    with (w := String space ""); auto.
  - intros v r _. apply (parse_string_quote (String space "")). reflexivity.
  - clear. induction o; simpl; auto.
Qed.

(** [JSON.parse(JSON.stringify(m, null, 2))] is [m]. *)
Lemma parse_stringify (m : Timestamps) :
  valid_store m = true -> JSON.parse (JSON.stringify m) = Some m.
Proof.
  unfold valid_store. intros H. apply andb_prop in H as [W F].
  unfold JSON.parse.
  set (fuel := String.length (JSON.stringify m)).
  assert (Lm : members_length (map (printed JSON.stringify_lines) m) <= fuel).
  { unfold fuel. rewrite stringify_printed. apply object_length. }
  clearbody fuel.
  assert (E : JSON.parse_object (JSON.parse_object JSON.parse_string fuel) fuel
                (JSON.stringify m) = Some (m, "")).
  { rewrite stringify_printed.
    rewrite <- (append_nil_r (JSON.object "" _)).
    apply (parse_object_printed (JSON.parse_object JSON.parse_string fuel)
             JSON.stringify_lines
             (fun o => well_formed o = true /\ length o <= fuel))
      with (w := ""); auto.
    - intros o r [Wo Lo]. now apply parse_lines_text.
    - pose proof (members_length_count (map (printed JSON.stringify_lines) m)) as C.
      rewrite length_map in C. exact (Nat.le_trans _ _ _ C Lm).
    - apply Forall_forall. intros o I. apply in_map_iff in I as [[k o'] [<- I]].
      rewrite forallb_forall in F. split; [exact (F _ I)|].
      pose proof (members_length_value _ _
                    (in_map (printed JSON.stringify_lines) _ _ I)) as C.
      change (String.length (JSON.stringify_lines o')
              <= members_length (map (printed JSON.stringify_lines) m)) in C.
      pose proof (length_lines_text o') as D. cbn [snd].
      exact (Nat.le_trans _ _ _ D (Nat.le_trans _ _ _ C Lm)). }
  now rewrite E.
Qed.

(** ** The length of the text is fuel enough for [JSON.parse] *)

Lemma skip_ws_length s : String.length (JSON.skip_ws s) <= String.length s.
Proof.
  induction s as [|c s IH]; [reflexivity|]. cbn [JSON.skip_ws].
  destruct (JSON.is_ws c); cbn [String.length]; lia.
Qed.

Lemma prepend_length bytes r x rest :
  JSON.prepend bytes r = Some (x, rest) ->
  exists y, r = Some (y, rest).
Proof.
  unfold JSON.prepend. destruct r as [[y rest']|]; [|discriminate].
  intros [= _ <-]. eauto.
Qed.

Lemma parse_chars_length n : forall s x rest,
  String.length s <= n ->
  JSON.parse_chars s = Some (x, rest) -> String.length rest < String.length s.
Proof.
  induction n as [|n IH]; intros s x rest L H.
  - destruct s; [discriminate | cbn in L; lia].
  - destruct s as [|c r]; [discriminate|].
    cbn [JSON.parse_chars] in H. cbn [String.length] in L |- *.
    destruct (c =? dquote)%char.
    { injection H as _ <-. lia. }
    destruct (c =? backslash)%char.
    + destruct r as [|e r1]; [discriminate|]. cbn [String.length] in L |- *.
      destruct (JSON.simple_escape e).
      * apply prepend_length in H as [y H]. apply IH in H; lia.
      * destruct (e =? "u")%char; [|discriminate].
        destruct r1 as [|h1 [|h2 [|h3 [|h4 r5]]]]; try discriminate.
        destruct (JSON.code_unit h1 h2 h3 h4) as [u|]; [|discriminate].
        cbn [String.length] in L |- *.
        destruct (JSON.utf8 u).
        { apply prepend_length in H as [y H]. apply IH in H; lia. }
        destruct r5 as [|b [|x' [|k1 [|k2 [|k3 [|k4 r9]]]]]]; try discriminate.
        destruct ((b =? backslash)%char && (x' =? "u")%char); [|discriminate].
        destruct (JSON.code_unit k1 k2 k3 k4) as [lo|]; [|discriminate].
        destruct (JSON.utf8_pair u lo); [|discriminate].
        apply prepend_length in H as [y H]. cbn [String.length] in L |- *.
        apply IH in H; lia.
    + destruct (N_of_ascii c <? 32)%N; [discriminate|].
      apply prepend_length in H as [y H]. apply IH in H; lia.
Qed.

Lemma parse_string_length s x rest :
  JSON.parse_string s = Some (x, rest) -> String.length rest < String.length s.
Proof.
  unfold JSON.parse_string. pose proof (skip_ws_length s) as K.
  destruct (JSON.skip_ws s) as [|c r]; [discriminate|].
  destruct (c =? dquote)%char; [|discriminate]. intros H.
  apply (parse_chars_length (String.length r)) in H; [|lia].
  cbn [String.length] in K. lia.
Qed.

Section Fuel.
Context {V : Type}.
Variables parse1 parse2 : string -> option (V * string).
Variable bound : nat.
Hypothesis agree : forall s, String.length s <= bound -> parse1 s = parse2 s.
Hypothesis shrinks : forall s v r,
  parse1 s = Some (v, r) -> String.length r <= String.length s.

Lemma parse_members_fuel f1 : forall f2 acc s,
  String.length s <= bound -> String.length s <= f1 -> String.length s <= f2 ->
  JSON.parse_members parse1 f1 acc s = JSON.parse_members parse2 f2 acc s.
Proof.
  induction f1 as [|f1 IH]; intros f2 acc s B L1 L2.
  - destruct s; [|cbn in L1; lia]. now destruct f2.
  - destruct f2 as [|f2].
    { destruct s; [reflexivity | cbn in L2; lia]. }
    rewrite !parse_members_S.
    destruct (JSON.parse_string s) as [[k r1]|] eqn:K; [|reflexivity].
    apply parse_string_length in K.
    pose proof (skip_ws_length r1) as K1.
    destruct (JSON.skip_ws r1) as [|c r2]; [reflexivity|].
    cbn [String.length] in K1.
    destruct (c =? ":")%char; [|reflexivity].
    rewrite <- agree by lia.
    destruct (parse1 r2) as [[v r3]|] eqn:P; [|reflexivity].
    apply shrinks in P. pose proof (skip_ws_length r3) as K3.
    destruct (JSON.skip_ws r3) as [|d r4]; [reflexivity|].
    cbn [String.length] in K3.
    destruct (d =? ",")%char; [|reflexivity].
    apply IH; lia.
Qed.

Lemma parse_object_fuel f1 f2 s :
  String.length s <= bound -> String.length s <= f1 -> String.length s <= f2 ->
  JSON.parse_object parse1 f1 s = JSON.parse_object parse2 f2 s.
Proof.
  intros B L1 L2. unfold JSON.parse_object.
  pose proof (skip_ws_length s) as K.
  destruct (JSON.skip_ws s) as [|c r]; [reflexivity|].
  cbn [String.length] in K.
  destruct (c =? "{")%char; [|reflexivity].
  destruct (JSON.skip_ws r) as [|d r']; [reflexivity|].
  destruct (d =? "}")%char; [reflexivity|].
  apply parse_members_fuel; lia.
Qed.

Lemma parse_members_shrinks f : forall acc s o r,
  JSON.parse_members parse1 f acc s = Some (o, r) ->
  String.length r <= String.length s.
Proof.
  induction f as [|f IH]; intros acc s o r H; [discriminate|].
  rewrite parse_members_S in H.
  destruct (JSON.parse_string s) as [[k r1]|] eqn:K; [|discriminate].
  apply parse_string_length in K.
  pose proof (skip_ws_length r1) as K1.
  destruct (JSON.skip_ws r1) as [|c r2]; [discriminate|].
  cbn [String.length] in K1.
  destruct (c =? ":")%char; [|discriminate].
  destruct (parse1 r2) as [[v r3]|] eqn:P; [|discriminate].
  apply shrinks in P. pose proof (skip_ws_length r3) as K3.
  destruct (JSON.skip_ws r3) as [|d r4]; [discriminate|].
  cbn [String.length] in K3.
  destruct (d =? ",")%char; [apply IH in H; lia|].
  destruct (d =? "}")%char; [|discriminate].
  injection H as _ <-. lia.
Qed.

Lemma parse_object_shrinks f s o r :
  JSON.parse_object parse1 f s = Some (o, r) ->
  String.length r <= String.length s.
Proof.
  unfold JSON.parse_object. pose proof (skip_ws_length s) as K.
  destruct (JSON.skip_ws s) as [|c r0]; [discriminate|].
  cbn [String.length] in K.
  destruct (c =? "{")%char; [|discriminate].
  pose proof (skip_ws_length r0) as K0.
  destruct (JSON.skip_ws r0) as [|d r1] eqn:E; [discriminate|].
  cbn [String.length] in K0.
  destruct (d =? "}")%char.
  - intros [= _ <-]. lia.
  - intros H. apply parse_members_shrinks in H. lia.
Qed.
End Fuel.

(** More fuel than the length of the text changes nothing: [JSON.parse]
    never gives up for lack of it. *)
Lemma parse_fuel_enough (text : string) (fuel : nat) :
  String.length text <= fuel ->
  JSON.parse_object (JSON.parse_object JSON.parse_string fuel) fuel text
  = JSON.parse_object
      (JSON.parse_object JSON.parse_string (String.length text))
      (String.length text) text.
Proof.
  intros L.
  apply (parse_object_fuel _ _ (String.length text)); auto.
  - intros s B.
    apply (parse_object_fuel _ _ (String.length s)); auto; try lia.
    intros s' v r H. apply parse_string_length in H. lia.
  - intros s v r H.
    apply (parse_object_shrinks JSON.parse_string) in H; auto.
    intros s' v' r' H'. apply parse_string_length in H'. lia.
Qed.

(** ** What [JSON.parse] returns is in enumeration order *)

Section ParserOutput.
Context {V : Type}.
Variable parse_value : string -> option (V * string).
Variable good : V -> Prop.
Hypothesis parse_good : forall s v r, parse_value s = Some (v, r) -> good v.

Lemma In_set (o : JsObject V) k v kv :
  In kv (set o k v) -> kv = (k, v) \/ In kv o.
Proof.
  unfold set. destruct (has o k).
  - induction o as [|[k0 v0] o IH]; simpl; [tauto|].
    destruct (k =? k0) eqn:E; simpl.
    + apply String.eqb_eq in E. subst. intuition.
    + intuition.
  - destruct (array_index k) as [n|].
    + induction o as [|[k0 v0] o IH]; simpl; [intuition|].
      destruct (array_index k0) as [n0|]; [destruct (n <? n0)%N|]; simpl; intuition.
    + intros I. apply in_app_or in I. simpl in I. intuition.
Qed.

Lemma values_set (o : JsObject V) k v :
  Forall good (map snd o) -> good v -> Forall good (map snd (set o k v)).
Proof.
  intros F G. apply Forall_forall. intros x I.
  apply in_map_iff in I as [kv [<- I]]. apply In_set in I as [->|I]; [exact G|].
  rewrite Forall_forall in F. apply F. now apply in_map.
Qed.

Lemma parse_members_sound fuel : forall acc s o r,
  JSON.parse_members parse_value fuel acc s = Some (o, r) ->
  well_formed acc = true -> Forall good (map snd acc) ->
  well_formed o = true /\ Forall good (map snd o).
Proof.
  induction fuel as [|fuel IH]; intros acc s o r H W F; [discriminate|].
  rewrite parse_members_S in H.
  destruct (JSON.parse_string s) as [[k r1]|]; [|discriminate].
  destruct (JSON.skip_ws r1) as [|c r2]; [discriminate|].
  destruct (c =? ":")%char; [|discriminate].
  destruct (parse_value r2) as [[v r3]|] eqn:P; [|discriminate].
  assert (W' : well_formed (set acc k v) = true) by now apply well_formed_set.
  assert (F' : Forall good (map snd (set acc k v)))
    by (apply values_set; eauto).
  destruct (JSON.skip_ws r3) as [|d r4]; [discriminate|].
  destruct (d =? ",")%char; [eauto|].
  destruct (d =? "}")%char; [|discriminate].
  injection H as <- <-. auto.
Qed.

Lemma parse_object_sound fuel s o r :
  JSON.parse_object parse_value fuel s = Some (o, r) ->
  well_formed o = true /\ Forall good (map snd o).
Proof.
  unfold JSON.parse_object.
  destruct (JSON.skip_ws s) as [|c r0]; [discriminate|].
  destruct (c =? "{")%char; [|discriminate].
  destruct (JSON.skip_ws r0) as [|d r1]; [discriminate|].
  destruct (d =? "}")%char.
  - intros [= <- <-]. split; [reflexivity | constructor].
  - intros H. eapply parse_members_sound; eauto.
Qed.
End ParserOutput.

(** A store read by [JSON.parse] is a valid store. *)
Lemma parse_valid (text : string) (m : Timestamps) :
  JSON.parse text = Some m -> valid_store m = true.
Proof.
  unfold JSON.parse.
  destruct (JSON.parse_object _ _ text) as [[m' rest]|] eqn:E; [|discriminate].
  destruct (JSON.skip_ws rest); [|discriminate]. intros [= <-].
  apply (parse_object_sound _ (fun o : LineMap => well_formed o = true)) in E.
  - destruct E as [W F]. unfold valid_store. rewrite W. simpl.
    apply forallb_forall. intros kv I. rewrite Forall_forall in F.
    apply F. now apply in_map.
  - intros s v r H.
    now apply (parse_object_sound _ (fun _ : string => True)) in H.
Qed.

(** ** One update of the store *)

Lemma stamped_line_map m p l t :
  get (stamped m p l t) p
  = Some (set (match get m p with Some lines => lines | None => [] end)
              (toString l) t).
Proof.
  unfold stamped, has. destruct (get m p) as [lines|] eqn:G; cbn [negb].
  - rewrite G. apply get_set_same.
  - rewrite get_set_same. apply get_set_same.
Qed.

Lemma stamped_other_document m p l t p' :
  p' <> p -> get (stamped m p l t) p' = get m p'.
Proof.
  intros D. unfold stamped, has. destruct (get m p) as [lines|] eqn:G; cbn [negb].
  - rewrite G. now apply get_set_other.
  - rewrite get_set_same. rewrite get_set_other by exact D.
    now apply get_set_other.
Qed.

Lemma entry_stamped_same m p l t : entry (stamped m p l t) p l = Some t.
Proof. unfold entry. rewrite stamped_line_map. apply get_set_same. Qed.

Lemma entry_stamped_other m p l t p' l' :
  (p', l') <> (p, l) -> entry (stamped m p l t) p' l' = entry m p' l'.
Proof.
  intros D. unfold entry. destruct (String.eqb_spec p' p) as [->|Dp].
  - rewrite stamped_line_map.
    assert (toString l' <> toString l).
    { intros E. apply toString_inj in E. congruence. }
    rewrite get_set_other by assumption.
    now destruct (get m p).
  - now rewrite stamped_other_document.
Qed.

Lemma valid_store_values (m : Timestamps) :
  valid_store m = true <->
  well_formed m = true /\ Forall (fun o : LineMap => well_formed o = true) (map snd m).
Proof.
  unfold valid_store. rewrite andb_true_iff, forallb_forall, Forall_forall.
  split; intros [W F]; split; auto.
  - intros o I. apply in_map_iff in I as [kv [<- I]]. auto.
  - intros kv I. apply F. now apply in_map.
Qed.

Lemma valid_store_set (m : Timestamps) k (o : LineMap) :
  valid_store m = true -> well_formed o = true -> valid_store (set m k o) = true.
Proof.
  rewrite !valid_store_values. intros [W F] Wo. split.
  - now apply well_formed_set.
  - now apply (values_set (fun o : LineMap => well_formed o = true)).
Qed.

Lemma valid_store_get (m : Timestamps) k (o : LineMap) :
  valid_store m = true -> get m k = Some o -> well_formed o = true.
Proof.
  rewrite valid_store_values. intros [_ F] G. rewrite Forall_forall in F.
  apply F. clear F. induction m as [|[k0 o0] m IH]; simpl in *; [discriminate|].
  destruct (k =? k0); [injection G as ->; now left | right; auto].
Qed.

(** The store stays valid under [updateLineTimestamp]'s assignments. *)
Lemma valid_stamped m p l t :
  valid_store m = true -> valid_store (stamped m p l t) = true.
Proof.
  intros H. unfold stamped, has. destruct (get m p) as [lines|] eqn:G; cbn [negb].
  - rewrite G. apply valid_store_set; auto. apply well_formed_set.
    eapply valid_store_get; eauto.
  - rewrite get_set_same. apply valid_store_set.
    + now apply valid_store_set.
    + now apply well_formed_set.
Qed.

(** ** The store operations on the vault *)

Lemma persisted_file v m :
  persisted v = Some m -> exists c, disk v = StoreFile c /\ JSON.parse c = Some m.
Proof.
  unfold persisted. destruct (disk v) as [| |c]; try discriminate. eauto.
Qed.

Lemma loadMetadata_file v c :
  disk v = StoreFile c ->
  Main.loadMetadata v
  = if readable v then
      match JSON.parse c with
      | Some m => (Resolved m, called OpRead v)
      | None =>
          (if JSON.is_json c then Unmodelled else Rejected SyntaxError,
           called OpRead v)
      end
    else (Rejected EIO, called OpRead v).
Proof.
  intros D. destruct v as [d r w log]. cbn [disk] in D. subst d.
  unfold Main.loadMetadata, bind, adapter_read.
  cbn [readable disk called]. destruct r; [|reflexivity].
  destruct (JSON.parse c); [reflexivity|]. destruct (JSON.is_json c); reflexivity.
Qed.

Lemma loadMetadata_no_file v :
  (forall c, disk v <> StoreFile c) ->
  Main.loadMetadata v
  = (Rejected (if readable v then ENOENT else EIO), called OpRead v).
Proof.
  intros D. destruct v as [d r w log].
  unfold Main.loadMetadata, bind, adapter_read.
  cbn [readable disk called] in *. destruct r; [|reflexivity].
  destruct d as [| |c]; try reflexivity. now destruct (D c).
Qed.

(** With the file in place [saveMetadata] falls through to [adapter.write]. *)
Lemma saveMetadata_file m v c :
  disk v = StoreFile c ->
  let text := JSON.stringify m in
  let v3 := called (OpAdapterWrite text)
              (called (OpCreate text) (called OpCreateFolder v)) in
  Main.saveMetadata m v
  = if writable v then (Resolved tt, stored (StoreFile text) v3)
    else (Rejected EIO, v3).
Proof.
  intros D. destruct v as [d r w log]. cbn [disk] in D. subst d.
  destruct w; reflexivity.
Qed.

(** On a writable vault [saveMetadata] leaves the file with the text of the
    store, whatever was there. *)
Lemma saveMetadata_writable m v :
  writable v = true ->
  fst (Main.saveMetadata m v) = Resolved tt
  /\ disk (snd (Main.saveMetadata m v)) = StoreFile (JSON.stringify m)
  /\ readable (snd (Main.saveMetadata m v)) = readable v
  /\ writable (snd (Main.saveMetadata m v)) = true.
Proof.
  intros W. unfold Main.saveMetadata, bind, try_catch, vault_createFolder,
    vault_create, adapter_write, ret.
  destruct v as [d r w log]. cbn [disk called writable readable stored] in *.
  subst w. destruct d; cbn; auto.
Qed.

Lemma updateLineTimestamp_stamped ws p l t :
  Main.updateLineTimestamp ws p l t
  = (metadata <- Main.loadMetadata ;;
     _ <- Main.saveMetadata (stamped metadata p l t) ;;
     _ <- settled (Main.overlayTimestamps ws (activeView ws) (stamped metadata p l t)) ;;
     ret tt).
Proof. reflexivity. Qed.

Lemma updateLineTimestamp_file ws p l t v c m :
  disk v = StoreFile c -> JSON.parse c = Some m ->
  let text := JSON.stringify (stamped m p l t) in
  Main.updateLineTimestamp ws p l t v
  = if readable v then
      if writable v
      then (overlay_outcome ws (stamped m p l t),
            stored (StoreFile text) (after_calls text v))
      else (Rejected EIO, after_calls text v)
    else (Rejected EIO, called OpRead v).
Proof.
  intros D P text. rewrite updateLineTimestamp_stamped.
  unfold bind at 1. rewrite (loadMetadata_file v c D), P.
  destruct (readable v) eqn:R; [|reflexivity].
  unfold bind at 1.
  rewrite (saveMetadata_file _ (called OpRead v) c) by exact D.
  fold text. cbv zeta. fold (after_calls text v).
  change (writable (called OpRead v)) with (writable v).
  destruct (writable v); [|reflexivity].
  unfold bind, settled, ret, overlay_outcome.
  destruct (Main.overlayTimestamps ws (activeView ws) (stamped m p l t)); reflexivity.
Qed.

Lemma updateLineTimestamp_no_file ws p l t v :
  (forall c, disk v <> StoreFile c) ->
  Main.updateLineTimestamp ws p l t v
  = (Rejected (if readable v then ENOENT else EIO), called OpRead v).
Proof.
  intros D. unfold Main.updateLineTimestamp. unfold bind at 1.
  now rewrite loadMetadata_no_file.
Qed.

(** The two copies of the store operations are the same functions. *)
Lemma copies_agree :
  SrcMain.loadMetadata = Main.loadMetadata
  /\ SrcMain.saveMetadata = Main.saveMetadata
  /\ SrcMain.overlayTimestamps = Main.overlayTimestamps
  /\ SrcMain.updateLineTimestamp = Main.updateLineTimestamp.
Proof. repeat split. Qed.

Lemma persisted_after_write text v :
  persisted (stored (StoreFile text) v) = JSON.parse text.
Proof. reflexivity. Qed.

Lemma persisted_called op v : persisted (called op v) = persisted v.
Proof. reflexivity. Qed.

Lemma persisted_after_calls text v : persisted (after_calls text v) = persisted v.
Proof. reflexivity. Qed.

(** A resolved update has read the store and written the stamped one. *)
Lemma updateLineTimestamp_resolved ws p l t v u v' :
  Main.updateLineTimestamp ws p l t v = (Resolved u, v') ->
  exists c m,
    disk v = StoreFile c /\ JSON.parse c = Some m
    /\ readable v = true /\ writable v = true
    /\ v' = stored (StoreFile (JSON.stringify (stamped m p l t)))
              (after_calls (JSON.stringify (stamped m p l t)) v).
Proof.
  intros H. destruct (disk v) as [| |c] eqn:D.
  - rewrite updateLineTimestamp_no_file in H; [discriminate | congruence].
  - rewrite updateLineTimestamp_no_file in H; [discriminate | congruence].
  - destruct (JSON.parse c) as [m|] eqn:P.
    + rewrite (updateLineTimestamp_file ws p l t v c m D P) in H.
      destruct (readable v); [|discriminate].
      destruct (writable v); [|discriminate].
      injection H as _ <-. exists c, m. auto.
    + rewrite updateLineTimestamp_stamped in H. unfold bind at 1 in H.
      rewrite (loadMetadata_file v c D), P in H.
      destruct (readable v); [destruct (JSON.is_json c)|]; discriminate.
Qed.

(** Whatever an update comes to, the store decodes afterwards to what it
    did before or to the stamped store. *)
Lemma updateLineTimestamp_persisted ws p l t v m :
  persisted v = Some m ->
  persisted (snd (Main.updateLineTimestamp ws p l t v)) = Some m
  \/ persisted (snd (Main.updateLineTimestamp ws p l t v)) = Some (stamped m p l t).
Proof.
  intros P. destruct (persisted_file _ _ P) as [c [D Pc]].
  rewrite (updateLineTimestamp_file ws p l t v c m D Pc).
  destruct (readable v); [destruct (writable v)|]; cbn [snd].
  - right. rewrite persisted_after_write. apply parse_stringify, valid_stamped.
    eapply parse_valid; eauto.
  - left. now rewrite persisted_after_calls.
  - left. now rewrite persisted_called.
Qed.

Lemma entry_stamped m p l t p' l' :
  entry (stamped m p l t) p' l' = entry m p' l'
  \/ (p' = p /\ l' = l /\ entry (stamped m p l t) p' l' = Some t).
Proof.
  destruct (String.eqb_spec p' p) as [->|Dp].
  - destruct (N.eq_dec l' l) as [->|Dl].
    + right. auto using entry_stamped_same.
    + left. apply entry_stamped_other. congruence.
  - left. apply entry_stamped_other. congruence.
Qed.

(** ** The claims about the store *)

(** C8.  [loadMetadata], [saveMetadata] and [updateLineTimestamp] of
    [src/main.ts] and of [src/src/main.ts] agree: on every argument and
    every vault they settle the same way and leave the same vault. *)
Theorem C8_store_operations_agree :
  (forall v, SrcMain.loadMetadata v = Main.loadMetadata v)
  /\ (forall metadata v, SrcMain.saveMetadata metadata v = Main.saveMetadata metadata v)
  /\ (forall ws filePath lineNumber timestamp v,
        SrcMain.updateLineTimestamp ws filePath lineNumber timestamp v
        = Main.updateLineTimestamp ws filePath lineNumber timestamp v).
Proof.
  destruct copies_agree as (L & S & _ & U).
  split; [|split]; intros; [rewrite L | rewrite S | rewrite U]; reflexivity.
Qed.

(** C9.  On a vault that can be read and written and whose store file
    decodes to [m], [updateLineTimestamp(p, n, t)] of either copy leaves a
    store file that decodes to a store in which the line map of [p] is the
    old one (an empty one if [p] had none) with [n.toString()] set to [t]:
    the entry of line [n] of [p] is [t], every other key of the line map of
    [p] and every other document are as before. *)
Theorem C9_updateLineTimestamp_frame :
  forall ws p n t v m v',
    persisted v = Some m -> readable v = true -> writable v = true ->
    v' = snd (Main.updateLineTimestamp ws p n t v)
    \/ v' = snd (SrcMain.updateLineTimestamp ws p n t v) ->
    exists m' lines',
      persisted v' = Some m'
      /\ get m' p = Some lines'
      /\ lines' = set (match get m p with Some lines => lines | None => [] end)
                      (toString n) t
      /\ entry m' p n = Some t
      /\ (forall k, k <> toString n ->
                    get lines' k
                    = match get m p with Some lines => get lines k | None => None end)
      /\ (forall n', n' <> n -> entry m' p n' = entry m p n')
      /\ (forall p', p' <> p -> get m' p' = get m p').
Proof.
  intros ws p n t v m v' P R W Hv.
  destruct copies_agree as (_ & _ & _ & U). rewrite U in Hv.
  assert (E : v' = snd (Main.updateLineTimestamp ws p n t v)) by (destruct Hv; auto).
  clear Hv. destruct (persisted_file _ _ P) as [c [D Pc]].
  rewrite (updateLineTimestamp_file ws p n t v c m D Pc), R, W in E.
  cbn [snd] in E. subst v'.
  exists (stamped m p n t). eexists. split; [|split; [apply stamped_line_map|]].
  - rewrite persisted_after_write. apply parse_stringify, valid_stamped.
    eapply parse_valid; eauto.
  - split; [reflexivity|]. split; [apply entry_stamped_same|].
    split; [|split].
    + intros k Dk. rewrite get_set_other by exact Dk. now destruct (get m p).
    + intros n' Dn. apply entry_stamped_other. congruence.
    + intros p' Dp. now apply stamped_other_document.
Qed.

Lemma C9_updateLineTimestamp_frame_witness :
  persisted sample_vault = Some sample_store
  /\ exists m' lines',
      persisted (snd (Main.updateLineTimestamp (sample_workspace sample_content 1)
                        "a.md" 1 T2 sample_vault)) = Some m'
      /\ get m' "a.md" = Some lines'
      /\ lines' = set sample_lines (toString 1) T2
      /\ entry m' "a.md" 1 = Some T2
      /\ (forall k, k <> toString 1 -> get lines' k = get sample_lines k)
      /\ (forall n', n' <> 1%N -> entry m' "a.md" n' = entry sample_store "a.md" n')
      /\ (forall p', p' <> "a.md" -> get m' p' = get sample_store p').
Proof.
  split; [reflexivity|].
  exact (C9_updateLineTimestamp_frame (sample_workspace sample_content 1)
           "a.md" 1%N T2 sample_vault sample_store _
           eq_refl eq_refl eq_refl (or_introl eq_refl)).
Defined.

(** A file in another layout than [saveMetadata]'s is read all the same,
    and written back in [saveMetadata]'s layout. *)
Remark compact_file_is_rewritten :
  persisted
    (mkVault
       (StoreFile ("{" ++ JSON.quote "a.md" ++ ":{" ++ JSON.quote "0" ++ ":"
                       ++ JSON.quote "t" ++ "}}"))
       true true [])
  = Some [("a.md", [("0", "t")])]
  /\ JSON.stringify [("a.md", [("0", "t")])]
     = "{" ++ String newline
         ("  " ++ JSON.quote "a.md" ++ ": {" ++ String newline
            ("    " ++ JSON.quote "0" ++ ": " ++ JSON.quote "t" ++ String newline
               ("  }" ++ String newline "}"))).
Proof. split; reflexivity. Qed.

(** C4.  A snapshot is persisted by [saveMetadata].  On a vault that can be
    read, a store written by [saveMetadata] is read back by [loadMetadata]
    as the store that was written; and where the file holds the text of a
    store, saving what [loadMetadata] read leaves the file with the same
    bytes, whether the write goes through or not. *)
Theorem C4_store_round_trip :
  forall m v,
    valid_store m = true -> readable v = true ->
    (writable v = true ->
     fst (Main.saveMetadata m v) = Resolved tt
     /\ disk (snd (Main.saveMetadata m v)) = StoreFile (JSON.stringify m)
     /\ fst (Main.loadMetadata (snd (Main.saveMetadata m v))) = Resolved m)
    /\ (disk v = StoreFile (JSON.stringify m) ->
        fst (Main.loadMetadata v) = Resolved m
        /\ forall loaded v2,
             Main.loadMetadata v = (Resolved loaded, v2) ->
             loaded = m
             /\ disk (snd (Main.saveMetadata loaded v2)) = disk v).
Proof.
  intros m v V R.
  assert (L : forall u, disk u = StoreFile (JSON.stringify m) -> readable u = true ->
                        Main.loadMetadata u = (Resolved m, called OpRead u)).
  { intros u D Ru. rewrite (loadMetadata_file u _ D), Ru.
    now rewrite parse_stringify. }
  split.
  - intros W. destruct (saveMetadata_writable m v W) as (A & D & R' & W').
    repeat split; auto. rewrite L; auto. congruence.
  - intros D. rewrite (L v D R). split; [reflexivity|].
    intros loaded v2 [= <- <-]. split; [reflexivity|].
    rewrite (saveMetadata_file m (called OpRead v) _ D).
    change (writable (called OpRead v)) with (writable v).
    destruct (writable v); cbn [snd disk stored called]; congruence.
Qed.

Lemma C4_store_round_trip_witness :
  valid_store sample_store = true
  /\ fst (Main.loadMetadata (snd (Main.saveMetadata sample_store fresh_vault)))
     = Resolved sample_store
  /\ disk (snd (Main.saveMetadata sample_store
                  (snd (Main.loadMetadata sample_vault))))
     = disk sample_vault.
Proof.
  split; [reflexivity|]. split.
  - exact (proj2 (proj2
      (proj1 (C4_store_round_trip sample_store fresh_vault eq_refl eq_refl) eq_refl))).
  - exact (proj2 (proj2
      (proj2 (C4_store_round_trip sample_store sample_vault eq_refl eq_refl) eq_refl)
      sample_store (snd (Main.loadMetadata sample_vault)) eq_refl)).
Defined.

(** C3.  Where the store has not been created yet, [loadMetadata] of
    either copy rejects, as [adapter.read] does; it does not resolve to an
    empty store.  So does [updateLineTimestamp], which reads before it
    writes, so that an edit never gets to create the store. *)
Theorem C3_load_rejects_store_not_yet_created :
  forall w log,
    Main.loadMetadata (mkVault NoFolder true w log)
    = (Rejected ENOENT, mkVault NoFolder true w (log ++ [OpRead]))
    /\ Main.loadMetadata (mkVault EmptyFolder true w log)
       = (Rejected ENOENT, mkVault EmptyFolder true w (log ++ [OpRead]))
    /\ SrcMain.loadMetadata (mkVault NoFolder true w log)
       = (Rejected ENOENT, mkVault NoFolder true w (log ++ [OpRead]))
    /\ (forall ws p l t,
          Main.updateLineTimestamp ws p l t (mkVault NoFolder true w log)
          = (Rejected ENOENT, mkVault NoFolder true w (log ++ [OpRead])))
    /\ (forall ws p l t,
          SrcMain.updateLineTimestamp ws p l t (mkVault NoFolder true w log)
          = (Rejected ENOENT, mkVault NoFolder true w (log ++ [OpRead]))).
Proof. intros w log. repeat split. Qed.

(** C5.  Over a store with no line map for the active file's name,
    [overlayTimestamps] of either copy raises a [TypeError] as soon as the
    view shows a line; it does not take the document to have no times. *)
Theorem C5_overlay_of_unrecorded_document_raises :
  forall p c s n ed av,
    Main.overlayTimestamps (mkWorkspace (Some (mkFile p (String c s))) av)
      (Some (mkView (S n) ed)) []
    = Rejected TypeError
    /\ SrcMain.overlayTimestamps (mkWorkspace (Some (mkFile p (String c s))) av)
         (Some (mkView (S n) ed)) []
       = Rejected TypeError.
Proof. intros. split; reflexivity. Qed.

(** ** The claims about the editor-change handler *)

(** C1.  A line is put in at position 1 of the three-line note and the
    cursor is on it.  Both handlers stamp line 1 and leave lines 0 and 2
    where they were: the time of the old line 1 is lost and the time of the
    old line 2 stays at index 2, where the specification's [recordChange]
    moves both one index up. *)
Theorem C1_inserted_line_does_not_shift_times :
  persisted
    (snd (SrcMain.handleEditorChange
            (sample_workspace (Spec.insert_line 1 "x" sample_content) 1)
            (mkEditor (Spec.insert_line 1 "x" sample_content) 1) T2
            SrcMain.onload sample_vault))
  = Some [("a.md", [("0", T1); ("1", T2); ("2", T1'')])]
  /\ persisted
       (snd (Main.handleEditorChange
               (sample_workspace (Spec.insert_line 1 "x" sample_content) 1)
               (mkEditor (Spec.insert_line 1 "x" sample_content) 1) T2
               loaded_plugin sample_vault))
     = Some [("a.md", [("0", T1); ("1", T2); ("2", T1'')])]
  /\ Spec.recordChange sample_lines sample_content
       (Spec.insert_line 1 "x" sample_content) T2
     = [("0", T1); ("1", T2); ("2", T1'); ("3", T1'')].
Proof. repeat split; vm_compute; reflexivity. Qed.

(** C2.  The note is [a], [b], [c] before and after the event and the
    cursor is on line 0: both handlers replace the time of line 0 by the
    time of the event, where the claim leaves the line map as it was. *)
Theorem C2_unchanged_content_is_restamped :
  persisted sample_vault = Some [("a.md", [("0", T1); ("1", T1'); ("2", T1'')])]
  /\ persisted
       (snd (SrcMain.handleEditorChange (sample_workspace sample_content 0)
               (mkEditor sample_content 0) T2 SrcMain.onload sample_vault))
     = Some [("a.md", [("0", T2); ("1", T1'); ("2", T1'')])]
  /\ persisted
       (snd (Main.handleEditorChange (sample_workspace sample_content 0)
               (mkEditor sample_content 0) T2 loaded_plugin sample_vault))
     = Some [("a.md", [("0", T2); ("1", T1'); ("2", T1'')])].
Proof. repeat split; vm_compute; reflexivity. Qed.

(** Whatever the content [C] of the note, changed or not, a change event
    leaves every entry of the store as it was except the entry of the
    cursor line of the active file, which may become the time of the
    event, and does in either copy whenever the handler resolves after an
    update (in [src/main.ts]: called with [updatedTimestamp] unset); with no
    active file, or in [src/main.ts] with [updatedTimestamp] set, the vault
    is left as it was. *)
Theorem X4_change_event_touches_only_cursor_line :
  forall C cursor ws now v m,
    persisted v = Some m ->
    let ed := mkEditor C cursor in
    (forall this,
        exists m',
          persisted (snd (SrcMain.handleEditorChange ws ed now this v)) = Some m'
          /\ forall p l,
               entry m' p l = entry m p l
               \/ (exists file, activeFile ws = Some file /\ p = path file)
                  /\ l = cursor /\ entry m' p l = Some now)
    /\ (forall this,
          exists m',
            persisted (snd (Main.handleEditorChange ws ed now this v)) = Some m'
            /\ forall p l,
                 entry m' p l = entry m p l
                 \/ (exists file, activeFile ws = Some file /\ p = path file)
                    /\ l = cursor /\ entry m' p l = Some now)
    /\ (forall this file,
          activeFile ws = Some file ->
          fst (fst (SrcMain.handleEditorChange ws ed now this v)) = Resolved tt ->
          persisted (snd (SrcMain.handleEditorChange ws ed now this v))
          = Some (stamped m (path file) cursor now))
    /\ (forall this file,
          activeFile ws = Some file ->
          Main.updatedTimestamp this = false ->
          fst (fst (Main.handleEditorChange ws ed now this v)) = Resolved tt ->
          persisted (snd (Main.handleEditorChange ws ed now this v))
          = Some (stamped m (path file) cursor now))
    /\ (activeFile ws = None ->
        (forall this, snd (SrcMain.handleEditorChange ws ed now this v) = v)
        /\ (forall this, snd (Main.handleEditorChange ws ed now this v) = v))
    /\ (forall this,
          Main.updatedTimestamp this = true ->
          snd (Main.handleEditorChange ws ed now this v) = v).
Proof.
  intros C cursor ws now v m P ed.
  assert (K : forall p,
             exists m',
               persisted (snd (Main.updateLineTimestamp ws p cursor now v)) = Some m'
               /\ forall p' l,
                    entry m' p' l = entry m p' l
                    \/ p' = p /\ l = cursor /\ entry m' p' l = Some now).
  { intros p. destruct (updateLineTimestamp_persisted ws p cursor now v m P) as [E|E].
    - exists m. split; [exact E | auto].
    - exists (stamped m p cursor now). split; [exact E|].
      intros p' l. apply entry_stamped. }
  split; [|split; [|split; [|split; [|split]]]].
  - intros this. unfold SrcMain.handleEditorChange.
    destruct (activeFile ws) as [file|] eqn:A.
    + destruct (K (path file)) as [m' [E F]]. exists m'. split.
      * cbn [cursor_from_line ed].
        change (SrcMain.updateLineTimestamp ws (path file) cursor now v)
          with (Main.updateLineTimestamp ws (path file) cursor now v).
        destruct (Main.updateLineTimestamp ws (path file) cursor now v) as [[u|e|] v'];
          exact E.
      * intros p l. destruct (F p l) as [H|(-> & -> & H)]; [now left|].
        right. eauto.
    + exists m. split; [exact P | auto].
  - intros this. unfold Main.handleEditorChange.
    destruct (activeFile ws) as [file|] eqn:A.
    + destruct (negb (Main.updatedTimestamp this)).
      * destruct (K (path file)) as [m' [E F]]. exists m'. split.
        -- cbn [cursor_from_line ed].
           destruct (Main.updateLineTimestamp ws (path file) cursor now v) as [[u|e|] v'];
             exact E.
        -- intros p l. destruct (F p l) as [H|(-> & -> & H)]; [now left|].
           right. eauto.
      * exists m. split; [exact P | auto].
    + exists m. split; [exact P | auto].
  - intros this file A. unfold SrcMain.handleEditorChange. rewrite A.
    cbn [cursor_from_line ed].
    change (SrcMain.updateLineTimestamp ws (path file) cursor now v)
      with (Main.updateLineTimestamp ws (path file) cursor now v).
    destruct (Main.updateLineTimestamp ws (path file) cursor now v) as [[u|e|] v'] eqn:U;
      [|discriminate..].
    intros _. cbn [snd].
    destruct (updateLineTimestamp_resolved _ _ _ _ _ _ _ U)
      as (c & m0 & D & Pc & R & W & ->).
    rewrite persisted_after_write.
    assert (m0 = m).
    { unfold persisted in P. rewrite D in P. congruence. }
    subst m0. apply parse_stringify, valid_stamped. eapply parse_valid; eauto.
  - intros this file A F. unfold Main.handleEditorChange. rewrite A, F.
    cbn [negb cursor_from_line ed].
    destruct (Main.updateLineTimestamp ws (path file) cursor now v) as [[u|e|] v'] eqn:U;
      [|discriminate..].
    intros _. cbn [snd].
    destruct (updateLineTimestamp_resolved _ _ _ _ _ _ _ U)
      as (c & m0 & D & Pc & R & W & ->).
    rewrite persisted_after_write.
    assert (m0 = m).
    { unfold persisted in P. rewrite D in P. congruence. }
    subst m0. apply parse_stringify, valid_stamped. eapply parse_valid; eauto.
  - intros A. split; intros this.
    + unfold SrcMain.handleEditorChange. now rewrite A.
    + unfold Main.handleEditorChange. now rewrite A.
  - intros this F. unfold Main.handleEditorChange. rewrite F.
    now destruct (activeFile ws).
Qed.

Lemma X4_change_event_touches_only_cursor_line_witness :
  persisted sample_vault = Some sample_store
  /\ persisted
       (snd (SrcMain.handleEditorChange (sample_workspace sample_content 0)
               (mkEditor sample_content 0) T2 SrcMain.onload sample_vault))
     = Some (stamped sample_store "a.md" 0 T2).
Proof.
  split; [reflexivity|].
  exact (proj1 (proj2 (proj2
    (X4_change_event_touches_only_cursor_line sample_content 0%N
       (sample_workspace sample_content 0) T2 sample_vault sample_store eq_refl)))
    SrcMain.onload sample_file eq_refl eq_refl).
Defined.

Lemma loadMetadata_resolved v m v1 :
  Main.loadMetadata v = (Resolved m, v1) ->
  exists c, disk v = StoreFile c /\ JSON.parse c = Some m
            /\ readable v = true /\ v1 = called OpRead v.
Proof.
  intros H. destruct (disk v) as [| |c] eqn:D.
  - rewrite loadMetadata_no_file in H; [discriminate | congruence].
  - rewrite loadMetadata_no_file in H; [discriminate | congruence].
  - rewrite (loadMetadata_file v c D) in H.
    destruct (readable v); [|discriminate].
    destruct (JSON.parse c) as [m0|] eqn:P;
      [|destruct (JSON.is_json c); discriminate].
    injection H as E1 E2. subst. exists c. auto.
Qed.

(** In [src/main.ts], when the store was read and [saveMetadata]
    rejects, [handleEditorChange] rejects with the same error, the plugin
    object is as before ([updatedTimestamp] is not set and no timer is
    started) and so is the store file, so that the next event reads the
    same store again.  And [updatedTimestamp] goes from unset to set only
    in a call that resolved and wrote the stamped store. *)
Lemma failed_persist_keeps_baseline :
  (forall ws ed now this v file m e v1 v2,
      activeFile ws = Some file ->
      Main.updatedTimestamp this = false ->
      Main.loadMetadata v = (Resolved m, v1) ->
      Main.saveMetadata (stamped m (path file) (cursor_from_line ed) now) v1
      = (Rejected e, v2) ->
      Main.handleEditorChange ws ed now this v = (Rejected e, this, v2)
      /\ disk v2 = disk v
      /\ persisted v2 = Some m
      /\ fst (Main.loadMetadata v2) = Resolved m)
  /\ (forall ws ed now this v r this' v',
        Main.handleEditorChange ws ed now this v = (r, this', v') ->
        Main.updatedTimestamp this = false ->
        Main.updatedTimestamp this' = true ->
        r = Resolved tt
        /\ exists file m,
             activeFile ws = Some file
             /\ persisted v = Some m
             /\ disk v'
                = StoreFile
                    (JSON.stringify
                       (stamped m (path file) (cursor_from_line ed) now))
             /\ persisted v'
                = Some (stamped m (path file) (cursor_from_line ed) now)).
Proof.
  split.
  - intros ws ed now this v file m e v1 v2 A F L S.
    destruct (loadMetadata_resolved _ _ _ L) as (c & D & P & R & ->).
    rewrite (saveMetadata_file _ (called OpRead v) c D) in S.
    change (writable (called OpRead v)) with (writable v) in S.
    destruct (writable v) eqn:W; [discriminate|].
    injection S as <- <-.
    unfold Main.handleEditorChange. rewrite A, F. cbn [negb].
    rewrite (updateLineTimestamp_file ws _ _ _ v c m D P), R, W.
    split; [reflexivity|]. split; [reflexivity|]. split.
    + unfold persisted. cbn [disk called]. now rewrite D.
    + rewrite (loadMetadata_file _ c) by exact D.
      cbn [readable called]. now rewrite R, P.
  - intros ws ed now this v r this' v' H F F'.
    unfold Main.handleEditorChange in H.
    destruct (activeFile ws) as [file|]; [|injection H as _ <- _; congruence].
    rewrite F in H. cbn [negb] in H.
    destruct (Main.updateLineTimestamp ws (path file) (cursor_from_line ed) now v)
      as [[u|e|] v0] eqn:U;
      [|injection H as _ <- _; congruence..].
    injection H as <- _ <-. split; [reflexivity|].
    destruct (updateLineTimestamp_resolved _ _ _ _ _ _ _ U)
      as (c & m & D & P & R & W & ->).
    exists file, m. split; [reflexivity|]. split.
    + unfold persisted. now rewrite D.
    + split; [reflexivity|]. rewrite persisted_after_write.
      apply parse_stringify, valid_stamped. eapply parse_valid; eauto.
Qed.


(** ** The debounce of [src/main.ts] *)

Lemma handleEditorChange_idle ws ed now this v :
  activeFile ws = None \/ Main.updatedTimestamp this = true ->
  Main.handleEditorChange ws ed now this v = (Resolved tt, this, v).
Proof.
  unfold Main.handleEditorChange. intros [A|F].
  - now rewrite A.
  - rewrite F. now destruct (activeFile ws).
Qed.

Lemma step_debounced s e : debounced (fst s) -> debounced (fst (Main.step s e)).
Proof.
  destruct s as [this v]. cbn [fst]. intros I. destruct e as [ws ed now|].
  - unfold Main.step. cbn [fst snd]. unfold Main.handleEditorChange.
    destruct (activeFile ws) as [file|]; [|exact I].
    destruct (Main.updatedTimestamp this) eqn:F; cbn [negb]; [exact I|].
    destruct (Main.updateLineTimestamp ws (path file) (cursor_from_line ed) now v)
      as [[u|e|] v'];
      [|exact I..].
    cbn [fst]. destruct I as [[I _]|[_ T]]; [congruence|].
    cbn [Main.updateTimer Main.updatedTimestamp]. rewrite T. left. auto.
  - unfold Main.step. cbn [fst snd].
    destruct (Main.updateTimer this); [|exact I].
    right. auto.
Qed.

Lemma run_debounced es : forall s, debounced (fst s) -> debounced (fst (Main.run s es)).
Proof.
  unfold Main.run. induction es as [|e es IH]; intros s I; [exact I|].
  cbn [fold_left]. apply IH. now apply step_debounced.
Qed.

Lemma run_editor_changes_idle changes : forall this v,
  editor_changes changes = true -> Main.updatedTimestamp this = true ->
  Main.run (this, v) changes = (this, v).
Proof.
  unfold Main.run. induction changes as [|e es IH]; intros this v C F; [reflexivity|].
  cbn [fold_left]. unfold editor_changes in C. cbn [forallb] in C.
  apply andb_prop in C as [Ce Ces]. destruct e as [ws ed now|]; [|discriminate].
  unfold Main.step at 2. cbn [fst snd].
  rewrite handleEditorChange_idle by now right.
  now apply IH.
Qed.

(** In [src/main.ts], with every call settled before the next event is
    delivered, [handleEditorChange] makes no call to the vault
    and leaves the plugin object alone when there is no active file or
    [updatedTimestamp] is set.  From [onload] on, [updatedTimestamp] is set
    exactly while the timer of 2000 ms is pending; editor changes that
    arrive while it is pending change neither the vault nor the plugin
    object; and the timer is started only by a call that resolved, made
    one read, one refused creation of the folder and of the file and one
    [adapter.write], and left the cursor line of the active file stamped
    with the time of that event. *)
Lemma debounce_window :
  (forall ws ed now this v,
      activeFile ws = None \/ Main.updatedTimestamp this = true ->
      Main.handleEditorChange ws ed now this v = (Resolved tt, this, v))
  /\ (forall v0 es, debounced (fst (Main.run (loaded_plugin, v0) es)))
  /\ (forall v0 es changes,
        Main.updateTimer (fst (Main.run (loaded_plugin, v0) es)) <> None ->
        editor_changes changes = true ->
        Main.run (Main.run (loaded_plugin, v0) es) changes
        = Main.run (loaded_plugin, v0) es)
  /\ (forall ws ed now this v r this' v',
        Main.handleEditorChange ws ed now this v = (r, this', v') ->
        Main.updateTimer this = None ->
        Main.updateTimer this' <> None ->
        r = Resolved tt
        /\ Main.updateTimer this' = Some (Main.After 2000)
        /\ Main.updatedTimestamp this' = true
        /\ exists file m,
             activeFile ws = Some file
             /\ persisted v = Some m
             /\ persisted v'
                = Some (stamped m (path file) (cursor_from_line ed) now)
             /\ entry (stamped m (path file) (cursor_from_line ed) now)
                  (path file) (cursor_from_line ed) = Some now
             /\ calls v'
                = (calls v
                   ++ [OpRead; OpCreateFolder;
                       OpCreate (JSON.stringify
                                   (stamped m (path file) (cursor_from_line ed) now));
                       OpAdapterWrite (JSON.stringify
                                   (stamped m (path file) (cursor_from_line ed) now))])%list).
Proof.
  split; [exact handleEditorChange_idle|]. split; [|split].
  - intros v0 es. apply run_debounced. right. auto.
  - intros v0 es changes T C.
    pose proof (run_debounced es (loaded_plugin, v0) (or_intror (conj eq_refl eq_refl))) as I.
    destruct (Main.run (loaded_plugin, v0) es) as [this v]. cbn [fst] in *.
    apply run_editor_changes_idle; [exact C|].
    destruct I as [[F _]|[_ N]]; [exact F | contradiction].
  - intros ws ed now this v r this' v' H T T'.
    unfold Main.handleEditorChange in H.
    destruct (activeFile ws) as [file|]; [|injection H as _ <- _; contradiction].
    destruct (negb (Main.updatedTimestamp this));
      [|injection H as _ <- _; contradiction].
    destruct (Main.updateLineTimestamp ws (path file) (cursor_from_line ed) now v)
      as [[u|e|] v0] eqn:U;
      [|injection H as _ <- _; contradiction..].
    injection H as <- <- <-. cbn [Main.updateTimer Main.updatedTimestamp].
    rewrite T. cbn [Main.updateTimer Main.updatedTimestamp].
    split; [reflexivity|]. split; [reflexivity|]. split; [reflexivity|].
    destruct (updateLineTimestamp_resolved _ _ _ _ _ _ _ U)
      as (c & m & D & P & R & W & ->).
    exists file, m. split; [reflexivity|]. split.
    { unfold persisted. now rewrite D. }
    split.
    { rewrite persisted_after_write. apply parse_stringify, valid_stamped.
      eapply parse_valid; eauto. }
    split; [apply entry_stamped_same|].
    unfold after_calls, called, stored. cbn [calls].
    now rewrite <- !app_assoc.
Qed.


(** ** The edge cases of the edit script *)

Lemma steps_nil_l newLines :
  Spec.steps [] newLines = map (fun _ => Spec.Ins) newLines.
Proof. destruct newLines; reflexivity. Qed.

Lemma steps_nil_r oldLines :
  Spec.steps oldLines [] = map (fun _ => Spec.Del) oldLines.
Proof. destruct oldLines; reflexivity. Qed.

Lemma steps_same lines :
  Spec.steps lines lines = map (fun _ => Spec.Keep) lines.
Proof.
  induction lines as [|x lines IH]; [reflexivity|].
  cbn [Spec.steps map]. rewrite String.eqb_refl. now rewrite IH.
Qed.

Lemma runs_all_inserted (x : string) newLines : forall i j,
  Spec.runs (map (fun _ => Spec.Ins) (x :: newLines)) i j
  = [Spec.insert (j, j + S (length newLines))].
Proof.
  induction newLines as [|y newLines IH]; intros i j.
  - cbn. now rewrite Nat.add_1_r.
  - change (map (fun _ => Spec.Ins) (x :: y :: newLines))
      with (Spec.Ins :: map (fun _ : string => Spec.Ins) (x :: newLines)).
    cbn [Spec.runs]. rewrite IH. cbn [Spec.push length].
    now rewrite Nat.add_succ_comm.
Qed.

Lemma runs_all_deleted (x : string) oldLines : forall i j,
  Spec.runs (map (fun _ => Spec.Del) (x :: oldLines)) i j
  = [Spec.delete (i, i + S (length oldLines))].
Proof.
  induction oldLines as [|y oldLines IH]; intros i j.
  - cbn. now rewrite Nat.add_1_r.
  - change (map (fun _ => Spec.Del) (x :: y :: oldLines))
      with (Spec.Del :: map (fun _ : string => Spec.Del) (x :: oldLines)).
    cbn [Spec.runs]. rewrite IH. cbn [Spec.push length].
    now rewrite Nat.add_succ_comm.
Qed.

Lemma runs_all_kept (x : string) lines : forall i j,
  Spec.runs (map (fun _ => Spec.Keep) (x :: lines)) i j
  = [Spec.equal (i, i + S (length lines)) (j, j + S (length lines))].
Proof.
  induction lines as [|y lines IH]; intros i j.
  - cbn. now rewrite !Nat.add_1_r.
  - change (map (fun _ => Spec.Keep) (x :: y :: lines))
      with (Spec.Keep :: map (fun _ : string => Spec.Keep) (x :: lines)).
    cbn [Spec.runs]. rewrite IH. cbn [Spec.push length].
    now rewrite !Nat.add_succ_comm.
Qed.

(** No function gives for two empty contents a single [insert] and a
    single [delete] at once. *)
Lemma edge_cases_clash (f : list string -> list string -> Spec.EditScript) :
  (forall newLines, f [] newLines = [Spec.insert (0, length newLines)]) ->
  (forall oldLines, f oldLines [] = [Spec.delete (0, length oldLines)]) ->
  False.
Proof. intros I D. specialize (I []). specialize (D []). congruence. Qed.

(** C6, as stated, fails: for two empty contents it asks for a script that
    is at once a single [insert], a single [delete] and a single [equal];
    the script of two empty contents has no operation. *)
Lemma C6_empty_contents_have_empty_script :
  Spec.computeEditScript [] [] = []
  /\ [Spec.insert (0, 0)] <> [Spec.delete (0, 0)].
Proof. split; [reflexivity | discriminate]. Qed.

(** C6, amended.  For non-empty [newLines] the script from no lines is one
    [insert] over all of [newLines]; for non-empty [oldLines] the script to
    no lines is one [delete] over all of [oldLines]; for non-empty [lines]
    the script from [lines] to [lines] is one [equal] run over all of them;
    and the script from no lines to no lines is empty. *)
Theorem C6_edge_cases_of_computeEditScript :
  (forall newLines,
      newLines <> [] ->
      Spec.computeEditScript [] newLines = [Spec.insert (0, length newLines)])
  /\ (forall oldLines,
        oldLines <> [] ->
        Spec.computeEditScript oldLines [] = [Spec.delete (0, length oldLines)])
  /\ (forall lines,
        lines <> [] ->
        Spec.computeEditScript lines lines
        = [Spec.equal (0, length lines) (0, length lines)])
  /\ Spec.computeEditScript [] [] = [].
Proof.
  unfold Spec.computeEditScript. split; [|split; [|split]].
  - intros [|x newLines] N; [contradiction|].
    rewrite steps_nil_l. apply runs_all_inserted.
  - intros [|x oldLines] N; [contradiction|].
    rewrite steps_nil_r. apply runs_all_deleted.
  - intros [|x lines] N; [contradiction|].
    rewrite steps_same. apply runs_all_kept.
  - reflexivity.
Qed.

Lemma C6_edge_cases_of_computeEditScript_witness :
  Spec.computeEditScript [] sample_content = [Spec.insert (0, 3)]
  /\ Spec.computeEditScript sample_content [] = [Spec.delete (0, 3)]
  /\ Spec.computeEditScript sample_content sample_content
     = [Spec.equal (0, 3) (0, 3)].
Proof.
  assert (N : sample_content <> []) by discriminate.
  split; [|split].
  - exact (proj1 C6_edge_cases_of_computeEditScript sample_content N).
  - exact (proj1 (proj2 C6_edge_cases_of_computeEditScript) sample_content N).
  - exact (proj1 (proj2 (proj2 C6_edge_cases_of_computeEditScript)) sample_content N).
Defined.

(** The text [JSON.stringify(m, null, 2)] of a store is read back by
    [JSON.parse] as [m], whatever the paths and the times are. *)
Theorem X3_parse_after_stringify :
  forall m : Timestamps,
    valid_store m = true -> JSON.parse (JSON.stringify m) = Some m.
Proof. exact parse_stringify. Qed.

Lemma X3_parse_after_stringify_witness :
  JSON.parse (JSON.stringify sample_store) = Some sample_store.
Proof. exact (X3_parse_after_stringify sample_store eq_refl). Defined.

(** ** The overlay *)

Lemma truthy_true s : truthy s = true <-> s <> "".
Proof.
  unfold truthy. rewrite negb_true_iff. split.
  - intros E ->. discriminate.
  - intros D. now apply String.eqb_neq.
Qed.

Lemma overlay_lines_named ws view ts file lines todo : forall i shown,
  activeFile ws = Some file -> name file <> "" ->
  get ts (name file) = Some lines ->
  Main.overlay_lines ws view ts i todo shown
  = Resolved (shown ++ badges view lines i todo)%list.
Proof.
  induction todo as [|todo IH]; intros i shown A T G.
  - cbn. now rewrite app_nil_r.
  - cbn [Main.overlay_lines]. rewrite A.
    apply truthy_true in T as T'. rewrite T'. cbn [negb]. rewrite G.
    rewrite IH by assumption.
    unfold badges. cbn [line_numbers flat_map]. unfold badge_of at 2.
    destruct (get lines (toString i)) as [t|]; [|reflexivity].
    destruct (truthy t && truthy (getLine (editor view) i)); [|reflexivity].
    now rewrite <- app_assoc.
Qed.

Lemma overlay_lines_unnamed ws view ts todo i shown :
  (activeFile ws = None \/ exists file, activeFile ws = Some file /\ name file = "") ->
  Main.overlay_lines ws view ts i todo shown = Resolved shown.
Proof.
  intros H. destruct todo as [|todo]; [reflexivity|]. cbn [Main.overlay_lines].
  destruct H as [A|[file [A E]]]; rewrite A; [reflexivity|]. now rewrite E.
Qed.

Lemma overlay_lines_missing ws view ts file todo i shown :
  activeFile ws = Some file -> name file <> "" -> get ts (name file) = None ->
  Main.overlay_lines ws view ts i (S todo) shown = Rejected TypeError.
Proof.
  intros A T G. cbn [Main.overlay_lines]. rewrite A.
  apply truthy_true in T. now rewrite T, G.
Qed.

Lemma line_numbers_In n : forall i j,
  In j (line_numbers i n) <-> (i <= j /\ j < i + N.of_nat n)%N.
Proof.
  induction n as [|n IH]; intros i j.
  - cbn. lia.
  - cbn [line_numbers In]. rewrite IH. lia.
Qed.

Lemma badges_In view lines n i0 i t :
  In (i, t) (badges view lines i0 n)
  <-> (i0 <= i /\ i < i0 + N.of_nat n)%N
      /\ get lines (toString i) = Some t
      /\ t <> "" /\ getLine (editor view) i <> "".
Proof.
  unfold badges. rewrite in_flat_map. split.
  - intros [j [J I]]. apply line_numbers_In in J. unfold badge_of in I.
    destruct (get lines (toString j)) as [t'|] eqn:G; [|destruct I].
    destruct (truthy t' && truthy (getLine (editor view) j)) eqn:B; [|destruct I].
    destruct I as [[= <- <-]|[]]. apply andb_prop in B as [B1 B2].
    apply truthy_true in B1, B2. auto.
  - intros (R & G & T & L). exists i. split; [now apply line_numbers_In|].
    unfold badge_of. rewrite G.
    apply truthy_true in T, L. rewrite T, L. now left.
Qed.

(** [overlayTimestamps] raises, a [TypeError], in two cases only: there is
    no markdown view; or the view shows a line, a file with a name is
    active and the store has no line map under that name. *)
Theorem X5_overlay_raises_exactly_when :
  forall ws view ts,
    (forall e, Main.overlayTimestamps ws view ts = Rejected e -> e = TypeError)
    /\ ((exists e, Main.overlayTimestamps ws view ts = Rejected e)
        <-> view = None
            \/ exists v file,
                 view = Some v /\ cm_lines v <> 0
                 /\ activeFile ws = Some file /\ name file <> ""
                 /\ get ts (name file) = None)
    /\ SrcMain.overlayTimestamps ws view ts = Main.overlayTimestamps ws view ts
    /\ ((exists bs, Main.overlayTimestamps ws view ts = Resolved bs)
        \/ Main.overlayTimestamps ws view ts = Rejected TypeError).
Proof.
  intros ws view ts.
  assert (K : view = None
              \/ (exists v file,
                    view = Some v /\ cm_lines v <> 0
                    /\ activeFile ws = Some file /\ name file <> ""
                    /\ get ts (name file) = None)
              \/ exists bs, Main.overlayTimestamps ws view ts = Resolved bs).
  { destruct view as [v|]; [|now left]. right. unfold Main.overlayTimestamps.
    destruct (activeFile ws) as [file|] eqn:A.
    - destruct (String.eqb_spec (name file) "") as [E|D].
      + right. rewrite overlay_lines_unnamed; eauto.
      + destruct (get ts (name file)) as [lines|] eqn:G.
        * right. erewrite overlay_lines_named; eauto.
        * destruct (cm_lines v) as [|n] eqn:C; [right; cbn; eauto|].
          left. exists v, file. rewrite C. repeat split; auto.
    - right. rewrite overlay_lines_unnamed; eauto. }
  assert (R : view = None
              \/ (exists v file,
                    view = Some v /\ cm_lines v <> 0
                    /\ activeFile ws = Some file /\ name file <> ""
                    /\ get ts (name file) = None) ->
              Main.overlayTimestamps ws view ts = Rejected TypeError).
  { intros [->|(v & file & -> & C & A & T & G)]; [reflexivity|].
    unfold Main.overlayTimestamps. destruct (cm_lines v) as [|n]; [contradiction|].
    now apply (overlay_lines_missing ws v ts file). }
  split; [|split; [|split]].
  - intros e H. destruct K as [K|[K|[bs K]]].
    + rewrite R in H by auto. congruence.
    + rewrite R in H by auto. congruence.
    + congruence.
  - split.
    + intros [e H]. destruct K as [K|[K|[bs K]]]; auto. congruence.
    + intros H. exists TypeError. auto.
  - reflexivity.
  - destruct K as [K|[K|[bs K]]]; eauto.
Qed.

(** With a file of some name active and a line map under that name in the
    store, [overlayTimestamps] resolves: line [i] of the view gets a badge
    exactly when it is one of the rendered lines, the line map has a time
    for it that is not empty, and the text of the line is not empty; the
    badges come in the order of the lines. *)
Theorem X6_overlay_badges :
  forall ws v ts file lines,
    activeFile ws = Some file -> name file <> "" ->
    get ts (name file) = Some lines ->
    Main.overlayTimestamps ws (Some v) ts = Resolved (badges v lines 0 (cm_lines v))
    /\ SrcMain.overlayTimestamps ws (Some v) ts
       = Resolved (badges v lines 0 (cm_lines v))
    /\ forall i t,
         In (i, t) (badges v lines 0 (cm_lines v))
         <-> (i < N.of_nat (cm_lines v))%N
             /\ get lines (toString i) = Some t
             /\ t <> "" /\ getLine (editor v) i <> "".
Proof.
  intros ws v ts file lines A T G.
  assert (E : Main.overlayTimestamps ws (Some v) ts
              = Resolved (badges v lines 0 (cm_lines v))).
  { unfold Main.overlayTimestamps. now rewrite (overlay_lines_named ws v ts file lines). }
  split; [exact E|]. split; [exact E|].
  intros i t. rewrite badges_In. split.
  - intros ([_ R] & H). split; [lia | exact H].
  - intros (R & H). split; [lia | exact H].
Qed.

Lemma X6_overlay_badges_witness :
  Main.overlayTimestamps
    (sample_workspace ["a"; ""; "c"] 0) (Some (mkView 3 (mkEditor ["a"; ""; "c"] 0)))
    sample_store
  = Resolved [(0%N, T1); (2%N, T1'')].
Proof.
  exact (proj1 (X6_overlay_badges (sample_workspace ["a"; ""; "c"] 0)
                  (mkView 3 (mkEditor ["a"; ""; "c"] 0)) sample_store
                  sample_file sample_lines eq_refl
                  (fun H => match H in _ = x return match x with
                                                    | "" => False
                                                    | String _ _ => True
                                                    end
                            with eq_refl => I end)
                  eq_refl)).
Defined.

(** ** A note in a folder *)

(** In [src/main.ts], with a readable and writable vault and a store that
    decodes: when the active file is filed under a path that is not its
    name, the store has no line map under the name and the view shows a
    line, [handleEditorChange] writes the stamped store with one
    [adapter.write], then rejects with the overlay's [TypeError], and
    leaves [updatedTimestamp] unset and no timer started: the debounce does
    not engage. *)
Theorem X1_note_in_folder_is_written_and_rejected :
  forall ws ed now this v m file view,
    activeFile ws = Some file -> activeView ws = Some view ->
    cm_lines view <> 0 -> name file <> "" -> name file <> path file ->
    get m (name file) = None ->
    Main.updatedTimestamp this = false ->
    persisted v = Some m -> readable v = true -> writable v = true ->
    let text := JSON.stringify (stamped m (path file) (cursor_from_line ed) now) in
    Main.handleEditorChange ws ed now this v
    = (Rejected TypeError, this, stored (StoreFile text) (after_calls text v))
    /\ persisted (snd (Main.handleEditorChange ws ed now this v))
       = Some (stamped m (path file) (cursor_from_line ed) now)
    /\ adapter_writes (calls (snd (Main.handleEditorChange ws ed now this v)))
       = adapter_writes (calls v) + 1.
Proof.
  intros ws ed now this v m file view A V C T D G F P R W text.
  destruct (persisted_file _ _ P) as [c [Dk Pc]].
  assert (O : overlay_outcome ws (stamped m (path file) (cursor_from_line ed) now)
              = Rejected TypeError).
  { unfold overlay_outcome. rewrite V. unfold Main.overlayTimestamps.
    destruct (cm_lines view) as [|n]; [contradiction|].
    rewrite (overlay_lines_missing ws view _ file); auto.
    now rewrite stamped_other_document. }
  assert (E : Main.handleEditorChange ws ed now this v
              = (Rejected TypeError, this, stored (StoreFile text) (after_calls text v))).
  { unfold Main.handleEditorChange. rewrite A, F. cbn [negb].
    rewrite (updateLineTimestamp_file ws _ _ _ v c m Dk Pc), R, W.
    fold text. now rewrite O. }
  rewrite E. cbn [snd]. split; [reflexivity|]. split.
  - rewrite persisted_after_write. apply parse_stringify, valid_stamped.
    eapply parse_valid; eauto.
  - unfold after_calls, called, stored, adapter_writes. cbn [calls].
    rewrite !filter_app, !length_app. cbn. lia.
Qed.

Lemma X1_note_in_folder_is_written_and_rejected_witness :
  Main.handleEditorChange
    (mkWorkspace (Some (mkFile "notes/a.md" "a.md"))
       (Some (mkView 3 (mkEditor sample_content 1))))
    (mkEditor sample_content 1) T2 loaded_plugin
    (mkVault (StoreFile "{}") true true [])
  = (Rejected TypeError, loaded_plugin,
     stored (StoreFile (JSON.stringify (stamped [] "notes/a.md" 1 T2)))
       (after_calls (JSON.stringify (stamped [] "notes/a.md" 1 T2))
          (mkVault (StoreFile "{}") true true []))).
Proof.
  exact (proj1 (X1_note_in_folder_is_written_and_rejected
                  (mkWorkspace (Some (mkFile "notes/a.md" "a.md"))
                     (Some (mkView 3 (mkEditor sample_content 1))))
                  (mkEditor sample_content 1) T2 loaded_plugin
                  (mkVault (StoreFile "{}") true true []) []
                  (mkFile "notes/a.md" "a.md") (mkView 3 (mkEditor sample_content 1))
                  eq_refl eq_refl
                  (fun H => match H in _ = x return match x with O => False | S _ => True end
                            with eq_refl => I end)
                  (fun H => match H in _ = x return match x with
                                                    | "" => False
                                                    | String _ _ => True
                                                    end
                            with eq_refl => I end)
                  (fun H => match H in _ = x return match x with
                                                    | String "n" _ => False
                                                    | _ => True
                                                    end
                            with eq_refl => I end)
                  eq_refl eq_refl eq_refl eq_refl eq_refl)).
Defined.

(** ** [saveMetadata] and [loadMetadata] on every vault *)

(** [saveMetadata] resolves exactly on a vault that can be written, and
    then the file holds the text of the store, whether the folder and the
    file were there or not; otherwise it rejects and the disk is as
    before.  It never changes what can be read or written. *)
Theorem X7_saveMetadata_outcome :
  forall metadata v,
    (fst (Main.saveMetadata metadata v) = Resolved tt <-> writable v = true)
    /\ (writable v = true ->
        disk (snd (Main.saveMetadata metadata v))
        = StoreFile (JSON.stringify metadata))
    /\ (writable v = false ->
        fst (Main.saveMetadata metadata v) = Rejected EIO
        /\ disk (snd (Main.saveMetadata metadata v)) = disk v)
    /\ readable (snd (Main.saveMetadata metadata v)) = readable v
    /\ writable (snd (Main.saveMetadata metadata v)) = writable v
    /\ SrcMain.saveMetadata metadata v = Main.saveMetadata metadata v.
Proof.
  intros metadata [d r w log].
  destruct d, w; cbn; repeat split; auto; discriminate.
Qed.


(** ** Sequences of events *)








Section Reassign.
Context {V : Type}.
Implicit Types (o : JsObject V) (k : string) (v : V).

Lemma overwrite_overwrite o k v v' :
  overwrite (overwrite o k v) k v' = overwrite o k v'.
Proof.
  induction o as [|[k0 v0] o IH]; [reflexivity|]. cbn [overwrite].
  destruct (k =? k0) eqn:E; cbn [overwrite]; rewrite E; [reflexivity|].
  now rewrite IH.
Qed.

Lemma overwrite_insert_index o n k v v' :
  get o k = None ->
  overwrite (insert_index o n k v) k v' = insert_index o n k v'.
Proof.
  induction o as [|[k0 v0] o IH]; intros G.
  - cbn. now rewrite String.eqb_refl.
  - cbn [get] in G. destruct (k =? k0) eqn:E; [discriminate|].
    cbn [insert_index].
    destruct (array_index k0) as [n0|]; [destruct (n <? n0)%N|];
      cbn [overwrite]; rewrite ?String.eqb_refl, ?E; try reflexivity.
    now rewrite IH.
Qed.

Lemma overwrite_snoc o k v v' :
  get o k = None ->
  overwrite (o ++ [(k, v)])%list k v' = (o ++ [(k, v')])%list.
Proof.
  induction o as [|[k0 v0] o IH]; intros G.
  - cbn. now rewrite String.eqb_refl.
  - cbn [get] in G. destruct (k =? k0) eqn:E; [discriminate|].
    cbn [app overwrite]. rewrite E. now rewrite IH.
Qed.

(** Of two assignments to one property the second stands. *)
Lemma set_set o k v v' : set (set o k v) k v' = set o k v'.
Proof.
  unfold set at 1. unfold has at 1. rewrite get_set_same.
  unfold set. unfold has. destruct (get o k) eqn:G.
  - apply overwrite_overwrite.
  - destruct (array_index k).
    + now apply overwrite_insert_index.
    + now apply overwrite_snoc.
Qed.
End Reassign.

Lemma has_stamped m p l t : has (stamped m p l t) p = true.
Proof. unfold has. now rewrite stamped_line_map. Qed.

Lemma stamped_as_set m p l t :
  stamped m p l t
  = set (if negb (has m p) then set m p [] else m) p
      (set (match get m p with Some lines => lines | None => [] end) (toString l) t).
Proof.
  unfold stamped, has. destruct (get m p) as [lines|] eqn:G; cbn [negb].
  - now rewrite G.
  - now rewrite get_set_same.
Qed.

Lemma stamped_stamped m p l t1 t2 :
  stamped (stamped m p l t1) p l t2 = stamped m p l t2.
Proof.
  rewrite (stamped_as_set (stamped m p l t1)).
  rewrite has_stamped, stamped_line_map. cbn [negb].
  rewrite (stamped_as_set m p l t1), (stamped_as_set m p l t2).
  now rewrite !set_set.
Qed.

Lemma update_written ws p l t v m :
  persisted v = Some m -> readable v = true -> writable v = true ->
  let v' := snd (Main.updateLineTimestamp ws p l t v) in
  persisted v' = Some (stamped m p l t)
  /\ disk v' = StoreFile (JSON.stringify (stamped m p l t))
  /\ readable v' = true /\ writable v' = true
  /\ adapter_writes (calls v') = adapter_writes (calls v) + 1.
Proof.
  intros P R W. destruct (persisted_file _ _ P) as [c [D Pc]].
  rewrite (updateLineTimestamp_file ws p l t v c m D Pc), R, W. cbn [snd].
  split; [|split; [reflexivity|split; [exact R|split; [exact W|]]]].
  - rewrite persisted_after_write. apply parse_stringify, valid_stamped.
    eapply parse_valid; eauto.
  - unfold after_calls, called, stored, adapter_writes. cbn [calls].
    rewrite !filter_app, !length_app. cbn. lia.
Qed.

(** Of two updates of one line the second stands: the file is, byte for
    byte, the one the second update alone would have left.  In particular
    an update made twice leaves the file of the first. *)
Theorem X10_second_update_of_a_line_stands :
  forall ws ws' p l t1 t2 v m,
    persisted v = Some m -> readable v = true -> writable v = true ->
    disk (snd (Main.updateLineTimestamp ws' p l t2
                 (snd (Main.updateLineTimestamp ws p l t1 v))))
    = disk (snd (Main.updateLineTimestamp ws' p l t2 v))
    /\ persisted (snd (Main.updateLineTimestamp ws' p l t2
                         (snd (Main.updateLineTimestamp ws p l t1 v))))
       = Some (stamped m p l t2).
Proof.
  intros ws ws' p l t1 t2 v m P R W.
  destruct (update_written ws p l t1 v m P R W) as (P1 & _ & R1 & W1 & _).
  destruct (update_written ws' p l t2 _ _ P1 R1 W1) as (P2 & D2 & _).
  destruct (update_written ws' p l t2 v m P R W) as (_ & D & _).
  rewrite stamped_stamped in P2, D2. split; [congruence | exact P2].
Qed.

Lemma X10_second_update_of_a_line_stands_witness :
  persisted
    (snd (Main.updateLineTimestamp (sample_workspace sample_content 1) "a.md" 1 T2
            (snd (Main.updateLineTimestamp (sample_workspace sample_content 1)
                    "a.md" 1 T1 sample_vault))))
  = Some (stamped sample_store "a.md" 1 T2).
Proof.
  exact (proj2 (X10_second_update_of_a_line_stands
                  (sample_workspace sample_content 1)
                  (sample_workspace sample_content 1)
                  "a.md" 1%N T1 T2 sample_vault sample_store
                  eq_refl eq_refl eq_refl)).
Defined.

Lemma entry_stamped_eq m p l t p' l' :
  entry (stamped m p l t) p' l'
  = if (p' =? p) && (l' =? l)%N then Some t else entry m p' l'.
Proof.
  destruct (String.eqb_spec p' p) as [->|Dp]; destruct (N.eqb_spec l' l) as [->|Dl];
    cbn [andb].
  - apply entry_stamped_same.
  - apply entry_stamped_other. congruence.
  - apply entry_stamped_other. congruence.
  - apply entry_stamped_other. congruence.
Qed.

(** Updates of two different lines, of one document or of two, can be made
    in either order: the stores the file decodes to afterwards record the
    same time for every line. *)
Theorem X11_updates_of_different_lines_commute :
  forall ws1 ws2 p1 l1 t1 p2 l2 t2 v m,
    persisted v = Some m -> readable v = true -> writable v = true ->
    (p1, l1) <> (p2, l2) ->
    exists m12 m21,
      persisted (snd (Main.updateLineTimestamp ws2 p2 l2 t2
                        (snd (Main.updateLineTimestamp ws1 p1 l1 t1 v)))) = Some m12
      /\ persisted (snd (Main.updateLineTimestamp ws1 p1 l1 t1
                           (snd (Main.updateLineTimestamp ws2 p2 l2 t2 v)))) = Some m21
      /\ (forall p l, entry m12 p l = entry m21 p l)
      /\ entry m12 p1 l1 = Some t1 /\ entry m12 p2 l2 = Some t2.
Proof.
  intros ws1 ws2 p1 l1 t1 p2 l2 t2 v m P R W D.
  destruct (update_written ws1 p1 l1 t1 v m P R W) as (P1 & _ & R1 & W1 & _).
  destruct (update_written ws2 p2 l2 t2 _ _ P1 R1 W1) as (P12 & _).
  destruct (update_written ws2 p2 l2 t2 v m P R W) as (P2 & _ & R2 & W2 & _).
  destruct (update_written ws1 p1 l1 t1 _ _ P2 R2 W2) as (P21 & _).
  eexists. eexists. split; [exact P12|]. split; [exact P21|].
  split; [|split].
  - intros p l. rewrite !entry_stamped_eq.
    destruct (String.eqb_spec p p2) as [E2|N2]; destruct (N.eqb_spec l l2) as [F2|M2];
      destruct (String.eqb_spec p p1) as [E1|N1]; destruct (N.eqb_spec l l1) as [F1|M1];
      cbn [andb]; try reflexivity.
    subst. now destruct D.
  - rewrite entry_stamped_other by exact D. apply entry_stamped_same.
  - apply entry_stamped_same.
Qed.

Lemma X11_updates_of_different_lines_commute_witness :
  exists m12 m21,
    persisted (snd (Main.updateLineTimestamp (sample_workspace sample_content 0)
                      "b.md" 0 T2
                      (snd (Main.updateLineTimestamp (sample_workspace sample_content 0)
                              "a.md" 7 T1 sample_vault)))) = Some m12
    /\ persisted (snd (Main.updateLineTimestamp (sample_workspace sample_content 0)
                         "a.md" 7 T1
                         (snd (Main.updateLineTimestamp (sample_workspace sample_content 0)
                                 "b.md" 0 T2 sample_vault)))) = Some m21
    /\ (forall p l, entry m12 p l = entry m21 p l)
    /\ entry m12 "a.md" 7 = Some T1 /\ entry m12 "b.md" 0 = Some T2.
Proof.
  exact (X11_updates_of_different_lines_commute
           (sample_workspace sample_content 0) (sample_workspace sample_content 0)
           "a.md" 7%N T1 "b.md" 0%N T2 sample_vault sample_store
           eq_refl eq_refl eq_refl
           (fun H => match H in _ = x return match x with
                                             | (String "a" _, _) => True
                                             | _ => False
                                             end
                     with eq_refl => I end)).
Defined.

(** [src/src/main.ts] has no debounce: on a readable and writable vault
    whose store decodes, every editor change made with a file active
    leads to one more [adapter.write], and a change with no file active
    to none. *)
Theorem X12_every_change_is_written :
  forall changes this v m,
    persisted v = Some m -> readable v = true -> writable v = true ->
    adapter_writes (calls (handle_all changes this v))
    = adapter_writes (calls v) + length (filter has_active_file changes).
Proof.
  unfold handle_all. intros changes this.
  induction changes as [|[[ws ed] now] changes IH]; intros v m P R W.
  - cbn. lia.
  - cbn [fold_left fst snd].
    change (length (filter has_active_file ((ws, ed, now) :: changes)))
      with (length (if match activeFile ws with Some _ => true | None => false end
                    then (ws, ed, now) :: filter has_active_file changes
                    else filter has_active_file changes)).
    unfold SrcMain.handleEditorChange at 2.
    destruct (activeFile ws) as [file|].
    + change (SrcMain.updateLineTimestamp ws (path file) (cursor_from_line ed) now v)
        with (Main.updateLineTimestamp ws (path file) (cursor_from_line ed) now v).
      destruct (update_written ws (path file) (cursor_from_line ed) now v m P R W)
        as (P1 & _ & R1 & W1 & C1).
      destruct (Main.updateLineTimestamp ws (path file) (cursor_from_line ed) now v)
        as [[u|e|] v1]; cbn [snd] in *;
        rewrite (IH v1 _ P1 R1 W1), C1; cbn [length];
        rewrite <- Nat.add_assoc; reflexivity.
    + cbn [snd]. now apply (IH v m).
Qed.

Lemma X12_every_change_is_written_witness :
  adapter_writes
    (calls (handle_all
              [(sample_workspace sample_content 1, mkEditor sample_content 1, T2);
               (sample_workspace sample_content 2, mkEditor sample_content 2, T2)]
              SrcMain.onload sample_vault))
  = adapter_writes (calls sample_vault) + 2.
Proof.
  exact (X12_every_change_is_written
           [(sample_workspace sample_content 1, mkEditor sample_content 1, T2);
            (sample_workspace sample_content 2, mkEditor sample_content 2, T2)]
           SrcMain.onload sample_vault sample_store eq_refl eq_refl eq_refl).
Defined.

(** In [src/main.ts], once the pending timer has gone off the next editor
    change with a file active is stamped again: on a readable and
    writable vault the file then decodes to the store with the cursor line
    set to the time of that change. *)
Theorem X13_timer_reopens_stamping :
  forall this v ws ed now file m,
    Main.updateTimer this <> None -> activeFile ws = Some file ->
    persisted v = Some m -> readable v = true -> writable v = true ->
    persisted (snd (Main.run (this, v) [Main.TimerExpired; Main.EditorChange ws ed now]))
    = Some (stamped m (path file) (cursor_from_line ed) now)
    /\ persisted (snd (Main.run (this, v) [Main.TimerExpired])) = Some m.
Proof.
  intros this v ws ed now file m T A P R W. unfold Main.run. cbn [fold_left].
  unfold Main.step at 2. unfold Main.step at 2. cbn [fst snd].
  destruct (Main.updateTimer this); [|contradiction].
  split; [|exact P].
  unfold Main.step. cbn [fst snd]. unfold Main.handleEditorChange. rewrite A.
  cbn [Main.timer_expired Main.updatedTimestamp negb].
  destruct (update_written ws (path file) (cursor_from_line ed) now v m P R W)
    as (P1 & _).
  destruct (Main.updateLineTimestamp ws (path file) (cursor_from_line ed) now v)
    as [[u|e|] v1]; exact P1.
Qed.

Lemma X13_timer_reopens_stamping_witness :
  persisted
    (snd (Main.run (Main.mkPlugin true (Some (Main.After 2000)), sample_vault)
            [Main.TimerExpired;
             Main.EditorChange (sample_workspace sample_content 2)
               (mkEditor sample_content 2) T2]))
  = Some (stamped sample_store "a.md" 2 T2).
Proof.
  exact (proj1 (X13_timer_reopens_stamping
                  (Main.mkPlugin true (Some (Main.After 2000))) sample_vault
                  (sample_workspace sample_content 2) (mkEditor sample_content 2) T2
                  sample_file sample_store
                  (fun H => match H in _ = x return match x with
                                                    | Some _ => True
                                                    | None => False
                                                    end
                            with eq_refl => I end)
                  eq_refl eq_refl eq_refl eq_refl)).
Defined.

(** ** What the plugin does when it starts and when a file is opened *)

(** [onload] of [src/main.ts] and the [file-open] handler of
    [src/src/main.ts] read the store once and write nothing; each resolves
    exactly when the store is read and, if a markdown view is active, the
    overlay over it does not raise. *)
Theorem X2_startup_only_reads :
  forall ws v,
    snd (Main.onload ws v) = called OpRead v
    /\ snd (SrcMain.onFileOpen ws v) = called OpRead v
    /\ (fst (Main.onload ws v) = Resolved loaded_plugin
        <-> exists m,
              fst (Main.loadMetadata v) = Resolved m
              /\ (activeView ws = None
                  \/ exists bs, Main.overlayTimestamps ws (activeView ws) m = Resolved bs))
    /\ (fst (SrcMain.onFileOpen ws v) = Resolved tt
        <-> exists m,
              fst (SrcMain.loadMetadata v) = Resolved m
              /\ (activeView ws = None
                  \/ exists bs,
                       SrcMain.overlayTimestamps ws (activeView ws) m = Resolved bs)).
Proof.
  intros ws v.
  change SrcMain.loadMetadata with Main.loadMetadata.
  change SrcMain.overlayTimestamps with Main.overlayTimestamps.
  assert (S : snd (Main.loadMetadata v) = called OpRead v).
  { destruct (disk v) as [| |c] eqn:D.
    - rewrite loadMetadata_no_file; [reflexivity | congruence].
    - rewrite loadMetadata_no_file; [reflexivity | congruence].
    - rewrite (loadMetadata_file v c D).
      destruct (readable v); [destruct (JSON.parse c)|]; reflexivity. }
  unfold Main.onload, SrcMain.onFileOpen.
  change SrcMain.loadMetadata with Main.loadMetadata.
  change SrcMain.overlayTimestamps with Main.overlayTimestamps.
  unfold bind at 1 3 5 7.
  destruct (Main.loadMetadata v) as [[m|e|] v1]; cbn [fst snd] in *; subst v1.
  - destruct (activeView ws) as [view|]; unfold bind, settled, ret.
    + destruct (Main.overlayTimestamps ws (Some view) m) as [bs|e|] eqn:O;
        cbn [fst snd]; (split; [reflexivity|]); (split; [reflexivity|]); split; split;
        try discriminate;
        try (intros _; exists m; split; [reflexivity | right; eauto]);
        try (intros (m' & [= <-] & [H|[bs H]]); congruence);
        reflexivity.
    + cbn [fst snd]. (split; [reflexivity|]); (split; [reflexivity|]); split; split;
        try (intros _; exists m; split; [reflexivity | now left]);
        reflexivity.
  - (split; [reflexivity|]); (split; [reflexivity|]); split; split;
      try discriminate; intros (m' & H & _); discriminate.
  - (split; [reflexivity|]); (split; [reflexivity|]); split; split;
      try discriminate; intros (m' & H & _); discriminate.
Qed.

(** ** The settings *)

Lemma order_nodup ks : forall lo, enumeration_order lo ks = true -> NoDup ks.
Proof.
  induction ks as [|k ks IH]; intros lo H; [constructor|].
  rewrite enumeration_order_cons in H.
  destruct (array_index k) as [n|] eqn:A.
  - apply andb_prop in H as [_ H]. constructor; [|eauto].
    intros I. pose proof (order_lower n ks k n H I A). lia.
  - assert (T : names_only ks = true /\ existsb (String.eqb k) ks = false).
    { cbn [names_only] in H. rewrite A in H. apply andb_prop in H as [H1 H2].
      apply negb_true_iff in H1. auto. }
    destruct T as [T E]. constructor.
    + intros I. assert (X : existsb (String.eqb k) ks = true).
      { apply existsb_exists. exists k. split; [exact I | apply String.eqb_refl]. }
      congruence.
    + apply (IH None). now apply names_only_order.
Qed.

Lemma get_not_in {V : Type} (o : JsObject V) k : ~ In k (keys o) -> get o k = None.
Proof.
  induction o as [|[k0 v0] o IH]; [reflexivity|]. cbn [keys map fst In get].
  intros N. destruct (String.eqb_spec k k0) as [->|D]; [tauto|].
  apply IH. tauto.
Qed.

Lemma get_assign_all {V : Type} (o : JsObject V) : forall target k,
  NoDup (keys o) ->
  get (fold_left (fun t kv => set t (fst kv) (snd kv)) o target) k
  = match get o k with
    | Some v => Some v
    | None => get target k
    end.
Proof.
  induction o as [|[k0 v0] o IH]; intros target k N; [reflexivity|].
  cbn [fold_left fst snd]. inversion N as [|? ? N0 N1]; subst.
  rewrite IH by exact N1. cbn [get].
  destruct (String.eqb_spec k k0) as [->|D].
  - rewrite (get_not_in o k0 N0). apply get_set_same.
  - destruct (get o k); [reflexivity|]. now apply get_set_other.
Qed.

(** [loadSettings] gives the defaults when the plugin never saved data;
    otherwise every saved property stands and a property that was not
    saved has its default.  After the settings tab's [onChange(value)] the
    next [loadSettings] finds [timestampLogLocation] to be [value], and
    the other properties of the settings as they were. *)
Theorem X14_settings_are_kept :
  Main.loadSettings None = Main.DEFAULT_SETTINGS
  /\ (forall saved k,
        well_formed saved = true ->
        get (Main.loadSettings (Some saved)) k
        = match get saved k with
          | Some v => Some v
          | None => get Main.DEFAULT_SETTINGS k
          end)
  /\ (forall value settings,
        well_formed settings = true ->
        get (Main.loadSettings (snd (Main.onChange value settings)))
          "timestampLogLocation" = Some value
        /\ forall k v,
             k <> "timestampLogLocation" -> get settings k = Some v ->
             get (Main.loadSettings (snd (Main.onChange value settings))) k = Some v)
  /\ SrcMain.loadSettings = Main.loadSettings
  /\ SrcMain.onChange = Main.onChange.
Proof.
  assert (L : forall saved k,
             well_formed saved = true ->
             get (Main.loadSettings (Some saved)) k
             = match get saved k with
               | Some v => Some v
               | None => get Main.DEFAULT_SETTINGS k
               end).
  { intros saved k W. unfold Main.loadSettings, Object_assign. cbn [fold_left].
    rewrite get_assign_all; [reflexivity|]. now apply (order_nodup _ None). }
  split; [reflexivity|]. split; [exact L|]. split; [|split; reflexivity].
  intros value settings W. unfold Main.onChange, Main.saveSettings. cbn [snd].
  assert (W' : well_formed (set settings "timestampLogLocation" value) = true)
    by now apply well_formed_set.
  split.
  - rewrite L by exact W'. now rewrite get_set_same.
  - intros k v D G. rewrite L by exact W'.
    rewrite get_set_other by exact D. now rewrite G.
Qed.

Lemma X14_settings_are_kept_witness :
  get (Main.loadSettings (snd (Main.onChange "/times/" Main.DEFAULT_SETTINGS)))
    "timestampLogLocation" = Some "/times/".
Proof.
  exact (proj1 (proj1 (proj2 (proj2 X14_settings_are_kept))
                  "/times/" Main.DEFAULT_SETTINGS eq_refl)).
Defined.

(** ** The order of the lines in the file *)

Lemma order_sorted ks : forall lo ns,
  enumeration_order lo ks = true -> map array_index ks = map Some ns ->
  StronglySorted N.lt ns /\ Forall (fun n => above lo n = true) ns.
Proof.
  induction ks as [|k ks IH]; intros lo ns H E.
  - destruct ns; [|discriminate]. split; constructor.
  - destruct ns as [|n ns]; [discriminate|]. cbn [map] in E.
    injection E as A E. rewrite enumeration_order_cons, A in H.
    apply andb_prop in H as [H1 H2].
    destruct (IH (Some n) ns H2 E) as [S F]. split.
    + constructor; [exact S|]. revert F. apply Forall_impl.
      intros x. cbn [above]. apply N.ltb_lt.
    + constructor; [exact H1|]. revert F. apply Forall_impl.
      intros x X. cbn [above] in X. apply N.ltb_lt in X.
      destruct lo as [l|]; [|reflexivity]. cbn [above] in *.
      apply N.ltb_lt in H1. apply N.ltb_lt. lia.
Qed.

(** However the lines were stamped before, after [updateLineTimestamp] on
    a readable and writable vault the file is the text of a store that has
    the new time and lists the lines of every document by ascending line
    number (when the keys of the document are all line numbers below
    2^32 - 1): the new line is filed at its place, not at the end. *)
Theorem X15_lines_are_written_in_order :
  forall ws p l t v m,
    persisted v = Some m -> readable v = true -> writable v = true ->
    exists m',
      disk (snd (Main.updateLineTimestamp ws p l t v))
      = StoreFile (JSON.stringify m')
      /\ entry m' p l = Some t
      /\ forall p' lines ns,
           get m' p' = Some lines ->
           map array_index (keys lines) = map Some ns ->
           StronglySorted N.lt ns.
Proof.
  intros ws p l t v m P R W.
  destruct (update_written ws p l t v m P R W) as (_ & D & _).
  destruct (persisted_file v m P) as (c & _ & Pc).
  pose proof (valid_stamped m p l t (parse_valid c m Pc)) as V.
  exists (stamped m p l t). split; [exact D|]. split.
  - apply entry_stamped_same.
  - intros p' lines ns G E.
    exact (proj1 (order_sorted _ None ns (valid_store_get _ _ _ V G) E)).
Qed.

Lemma X15_lines_are_written_in_order_witness :
  exists m',
    disk (snd (Main.updateLineTimestamp (sample_workspace sample_content 1)
                 "a.md" 9 T2
                 (snd (Main.updateLineTimestamp (sample_workspace sample_content 1)
                         "a.md" 10 T2 sample_vault))))
    = StoreFile (JSON.stringify m')
    /\ entry m' "a.md" 9 = Some T2
    /\ forall p' lines ns,
         get m' p' = Some lines ->
         map array_index (keys lines) = map Some ns ->
         StronglySorted N.lt ns.
Proof.
  exact (X15_lines_are_written_in_order (sample_workspace sample_content 1)
           "a.md" 9%N T2
           (snd (Main.updateLineTimestamp (sample_workspace sample_content 1)
                   "a.md" 10%N T2 sample_vault))
           (stamped sample_store "a.md" 10 T2) eq_refl eq_refl eq_refl).
Defined.

(** ** A note at the root of the vault *)

(** In [src/main.ts], for an active file whose name is its path, with a
    markdown view active, on a readable and writable vault whose store
    decodes and with [updatedTimestamp] unset: [handleEditorChange]
    resolves, sets [updatedTimestamp], leaves the store with the cursor
    line stamped, and the overlay it ends with is made from the line map
    just written, so that the cursor line carries the badge of this event
    when it is rendered and its text is not empty. *)
Theorem X16_root_note_is_stamped_and_shown :
  forall ws ed now this v m file view,
    activeFile ws = Some file -> activeView ws = Some view ->
    name file = path file -> name file <> "" ->
    Main.updatedTimestamp this = false ->
    persisted v = Some m -> readable v = true -> writable v = true ->
    let m' := stamped m (path file) (cursor_from_line ed) now in
    fst (fst (Main.handleEditorChange ws ed now this v)) = Resolved tt
    /\ Main.updatedTimestamp (snd (fst (Main.handleEditorChange ws ed now this v))) = true
    /\ persisted (snd (Main.handleEditorChange ws ed now this v)) = Some m'
    /\ exists lines,
         get m' (name file) = Some lines
         /\ Main.overlayTimestamps ws (Some view) m'
            = Resolved (badges view lines 0 (cm_lines view))
         /\ ((cursor_from_line ed < N.of_nat (cm_lines view))%N ->
             now <> "" -> getLine (editor view) (cursor_from_line ed) <> "" ->
             In (cursor_from_line ed, now) (badges view lines 0 (cm_lines view))).
Proof.
  intros ws ed now this v m file view A V E T F P R W m'.
  destruct (persisted_file _ _ P) as [c [D Pc]].
  pose proof (stamped_line_map m (path file) (cursor_from_line ed) now) as G.
  fold m' in G. rewrite <- E in G at 1.
  set (lines := set (match get m (path file) with Some o => o | None => [] end)
                  (toString (cursor_from_line ed)) now) in G.
  assert (O : Main.overlayTimestamps ws (Some view) m'
              = Resolved (badges view lines 0 (cm_lines view))).
  { unfold Main.overlayTimestamps.
    now rewrite (overlay_lines_named ws view m' file lines (cm_lines view) 0%N [] A T G). }
  assert (H : Main.handleEditorChange ws ed now this v
              = (Resolved tt,
                 Main.mkPlugin true
                   (match Main.updateTimer this with
                    | None => Some (Main.After 2000)
                    | Some x => Some x
                    end),
                 stored (StoreFile (JSON.stringify m'))
                   (after_calls (JSON.stringify m') v))).
  { unfold Main.handleEditorChange. rewrite A, F. cbn [negb].
    rewrite (updateLineTimestamp_file ws _ _ _ v c m D Pc), R, W.
    fold m'. unfold overlay_outcome. rewrite V, O.
    cbn [Main.updateTimer Main.updatedTimestamp].
    now destruct (Main.updateTimer this). }
  rewrite H. cbn [fst snd Main.updatedTimestamp].
  split; [reflexivity|]. split; [reflexivity|]. split.
  - rewrite persisted_after_write. apply parse_stringify, valid_stamped.
    eapply parse_valid; eauto.
  - exists lines. split; [exact G|]. split; [exact O|].
    intros C Tn L. apply badges_In. split; [lia|].
    split; [apply get_set_same | auto].
Qed.

Lemma X16_root_note_is_stamped_and_shown_witness :
  fst (fst (Main.handleEditorChange (sample_workspace sample_content 1)
              (mkEditor sample_content 1) T2 loaded_plugin sample_vault))
  = Resolved tt
  /\ Main.overlayTimestamps (sample_workspace sample_content 1)
       (Some (mkView 3 (mkEditor sample_content 1)))
       (stamped sample_store "a.md" 1 T2)
     = Resolved [(0%N, T1); (1%N, T2); (2%N, T1'')].
Proof.
  split.
  - exact (proj1 (X16_root_note_is_stamped_and_shown
                    (sample_workspace sample_content 1) (mkEditor sample_content 1)
                    T2 loaded_plugin sample_vault sample_store sample_file
                    (mkView 3 (mkEditor sample_content 1))
                    eq_refl eq_refl eq_refl
                    (fun H => match H in _ = x return match x with
                                                      | "" => False
                                                      | String _ _ => True
                                                      end
                              with eq_refl => I end)
                    eq_refl eq_refl eq_refl eq_refl)).
  - reflexivity.
Defined.

Lemma handleEditorChange_whole ws editor now this v :
  Awaits.run (this, v, []) (Awaits.whole ws editor now)
  = (Main.step (this, v) (Main.EditorChange ws editor now), []).
Proof.
  unfold Awaits.whole, Awaits.run, Main.step, Main.handleEditorChange.
  cbn [fold_left fst snd]. unfold Awaits.step at 5, Awaits.start.
  destruct (activeFile ws) as [file|]; [|reflexivity].
  destruct (Main.updatedTimestamp this) eqn:F; cbn [negb]; [reflexivity|].
  destruct (disk v) as [| |c] eqn:D.
  1,2: rewrite updateLineTimestamp_no_file by congruence;
       cbn [app Awaits.step nth_error Awaits.resume];
       rewrite loadMetadata_no_file by congruence; reflexivity.
  cbn [app Awaits.step nth_error Awaits.resume].
  rewrite (loadMetadata_file v c D).
  destruct (readable v) eqn:R.
  2:{ rewrite updateLineTimestamp_stamped. unfold bind at 1.
      rewrite (loadMetadata_file v c D), R. reflexivity. }
  destruct (JSON.parse c) as [m|] eqn:P.
  2:{ rewrite updateLineTimestamp_stamped. unfold bind at 1.
      rewrite (loadMetadata_file v c D), R, P.
      destruct (JSON.is_json c); reflexivity. }
  rewrite (updateLineTimestamp_file ws _ _ _ v c m D P), R.
  cbn [firstn skipn app nth_error Awaits.step Awaits.resume].
  destruct v as [d r w log]. cbn [disk readable writable] in *. subst d r.
  destruct this as [f t]. cbn [Main.updatedTimestamp] in F. subst f.
  destruct w; cbv -[JSON.stringify stamped Main.overlayTimestamps activeView];
    [|reflexivity].
  match goal with
  | |- context [Main.overlayTimestamps ?a ?b ?c] =>
      destruct (Main.overlayTimestamps a b c)
  end; destruct t; reflexivity.
Qed.

(** ** The store is written, the state is not advanced

    [updatedTimestamp] is set after [await this.updateLineTimestamp(...)],
    and [updateLineTimestamp] draws the overlay after [saveMetadata]: when
    the overlay raises, the store is written and the state stays behind. *)

(** C7.  A note in a folder, [notes/a.md], over the empty store, in a
    vault that can be read and written: [handleEditorChange] of
    [src/main.ts] writes the stamped store and rejects with the
    [TypeError] of the overlay; [updatedTimestamp] stays unset and no timer
    is started.  The store is changed and the state is not advanced, and
    the next event, one line further down, writes the store once more. *)
Theorem C7_store_written_state_not_advanced :
  persisted empty_store_vault = Some []
  /\ fst (Main.handleEditorChange folder_workspace (mkEditor sample_content 1) T2
            loaded_plugin empty_store_vault)
     = (Rejected TypeError, loaded_plugin)
  /\ persisted
       (snd (Main.handleEditorChange folder_workspace (mkEditor sample_content 1) T2
               loaded_plugin empty_store_vault))
     = Some [("notes/a.md", [("1", T2)])]
  /\ adapter_writes
       (calls (snd (Main.handleEditorChange folder_workspace
                      (mkEditor sample_content 1) T2 loaded_plugin
                      empty_store_vault)))
     = 1
  /\ fst (Main.handleEditorChange folder_workspace (mkEditor sample_content 2) T3
            loaded_plugin
            (snd (Main.handleEditorChange folder_workspace
                    (mkEditor sample_content 1) T2 loaded_plugin
                    empty_store_vault)))
     = (Rejected TypeError, loaded_plugin)
  /\ persisted
       (snd (Main.handleEditorChange folder_workspace (mkEditor sample_content 2) T3
               loaded_plugin
               (snd (Main.handleEditorChange folder_workspace
                       (mkEditor sample_content 1) T2 loaded_plugin
                       empty_store_vault))))
     = Some [("notes/a.md", [("1", T2); ("2", T3)])].
Proof. repeat split; vm_compute; reflexivity. Qed.

(** ** More than one write in a window *)

(** C10.  Three editor changes of the note in a folder, [notes/a.md], at
    10:05:00.000, 10:05:00.500 and 10:05:01.000, each call settled before
    the next event is delivered, from the plugin as [onload] leaves it:
    every call of [handleEditorChange] of [src/main.ts] writes the store
    and then rejects with the [TypeError] of the overlay, leaving
    [updatedTimestamp] unset and no timer started.  Three calls of
    [adapter.write] within one second, and three lines stamped. *)
Theorem C10_changes_within_a_second_all_write :
  fst (folder_change 0 T2 empty_store_vault) = (Rejected TypeError, loaded_plugin)
  /\ fst (folder_change 1 T3 (snd (folder_change 0 T2 empty_store_vault)))
     = (Rejected TypeError, loaded_plugin)
  /\ fst (folder_change 2 T4
            (snd (folder_change 1 T3 (snd (folder_change 0 T2 empty_store_vault)))))
     = (Rejected TypeError, loaded_plugin)
  /\ adapter_writes
       (calls (snd (folder_change 2 T4
                      (snd (folder_change 1 T3
                              (snd (folder_change 0 T2 empty_store_vault)))))))
     = 3
  /\ persisted
       (snd (folder_change 2 T4
               (snd (folder_change 1 T3
                       (snd (folder_change 0 T2 empty_store_vault))))))
     = Some [("notes/a.md", [("0", T2); ("1", T3); ("2", T4)])].
Proof. repeat split; vm_compute; reflexivity. Qed.

(** ** Calls that overlap *)











